(** * django-pgwatch: example consumers, the test-matrix harness, and the
      notification dispatch engine

    Definitions come first (parts I to IV), the theorems about them follow
    (parts V to VIII).

    - [Py]: the fragment of Python the sources rely on (values, [==],
      truthiness, [dict.get], exceptions and their class test, the
      [try]/[except]/[finally] statements) as a small state-and-error monad.
    - [Consumers]: [example_project/consumers.py], the five consumer
      classes and the factory [create_table_monitor].
    - [TestMatrix]: [test-matrix-docker.py], over an abstract operating
      system whose calls can fail.
    - [Engine]: the notification dispatch engine that the consumers are
      written against (OutboxStore, ConsumerRegistry, Dispatcher,
      ReplayCoordinator, NotificationListener).  The package is not among the
      sources; it is modelled from the specification. *)

From Stdlib Require Import ZArith String Ascii List Bool Lia.
From stdpp Require Import base option list strings gmap sorting.

Set Warnings "-register-all".
Open Scope string_scope.
Open Scope list_scope.
Open Scope nat_scope.

(* ===================================================================== *)
(** * Part I. The Python fragment *)
(* ===================================================================== *)

Module Py.

(** Python values as the consumers see them: the payload of a notification is
    JSON, so a value is [None], a boolean, an integer, a string, a list or a
    dict with string keys.  A dict keeps its items in insertion order, hence
    an association list (keys are unique in a well-formed dict; lookup takes
    the first binding). *)
Inductive pyval : Type :=
| PNone
| PBool (b : bool)
| PInt (z : Z)
| PStr (s : string)
| PList (xs : list pyval)
| PDict (items : list (string * pyval)).

(** [d.get(key)] on the items of a dict, [None] (here [Datatypes.None]) when
    the key is absent. *)
Fixpoint dict_lookup {A : Type} (items : list (string * A)) (key : string) : option A :=
  match items with
  | [] => None
  | (k, v) :: rest => if String.eqb k key then Some v else dict_lookup rest key
  end.

(** [a == b].  Booleans compare as the integers 0 and 1; lists compare
    element by element; dicts compare as mappings (same number of items, and
    every item of the left one is bound to an equal value in the right one). *)
Fixpoint py_eq (a b : pyval) {struct a} : bool :=
  match a, b with
  | PNone, PNone => true
  | PBool x, PBool y => Bool.eqb x y
  | PBool x, PInt z => Z.eqb (if x then 1 else 0) z
  | PInt z, PBool x => Z.eqb z (if x then 1 else 0)
  | PInt x, PInt y => Z.eqb x y
  | PStr s, PStr t => String.eqb s t
  | PList xs, PList ys =>
      (fix go (xs ys : list pyval) {struct xs} : bool :=
         match xs, ys with
         | [], [] => true
         | x :: xs', y :: ys' => py_eq x y && go xs' ys'
         | _, _ => false
         end) xs ys
  | PDict d1, PDict d2 =>
      Nat.eqb (length d1) (length d2) &&
      (fix all (d : list (string * pyval)) {struct d} : bool :=
         match d with
         | [] => true
         | (k, v) :: d' =>
             match dict_lookup d2 k with
             | Some v' => py_eq v v'
             | None => false
             end && all d'
         end) d1
  | _, _ => false
  end.

(** [a != b] *)
Definition py_ne (a b : pyval) : bool := negb (py_eq a b).

(** [bool(v)]: [None], [False], [0], the empty string, list and dict are
    false. *)
Definition truthy (v : pyval) : bool :=
  match v with
  | PNone => false
  | PBool b => b
  | PInt z => negb (Z.eqb z 0)
  | PStr s => negb (String.eqb s EmptyString)
  | PList xs => match xs with [] => false | _ => true end
  | PDict d => match d with [] => false | _ => true end
  end.

(** Exceptions.  What matters to the sources is the class test of an
    [except] clause and what [str] does to the exception: [Exception] is the
    base of every ordinary error, while [KeyboardInterrupt], [SystemExit] and
    [GeneratorExit] derive from [BaseException] only.  [OtherException] is
    any other class deriving from [Exception] whose [str] answers;
    [UnprintableError] is an instance of a class deriving from [Exception]
    whose [__str__] raises [raised_by_str] (a [__str__] that returns
    something else than a string raises [TypeError]). *)
Inductive exn : Type :=
| AttributeError (msg : string)
| CalledProcessError (returncode : Z) (cmd : string) (stdout stderr : pyval)
| OtherException (class_name msg : string)
| UnprintableError (class_name : string) (raised_by_str : exn)
| KeyboardInterrupt
| SystemExit (code : Z)
| GeneratorExit.

(** [isinstance(e, Exception)] *)
Definition isinstance_Exception (e : exn) : bool :=
  match e with
  | AttributeError _ | CalledProcessError _ _ _ _ | OtherException _ _
  | UnprintableError _ _ => true
  | KeyboardInterrupt | SystemExit _ | GeneratorExit => false
  end.

(** [isinstance(e, subprocess.CalledProcessError)] *)
Definition isinstance_CalledProcessError (e : exn) : bool :=
  match e with
  | CalledProcessError _ _ _ _ => true
  | _ => false
  end.

(** The outcome of evaluating an expression or running a statement. *)
Inductive result (A : Type) : Type :=
| Ok (a : A)
| Raise (e : exn).
Arguments Ok {A} a.
Arguments Raise {A} e.

Definition is_ok {A : Type} (r : result A) : bool :=
  match r with Ok _ => true | Raise _ => false end.

(** A piece of an f-string: literal text, or a formatted value. *)
Inductive fragment : Type :=
| Lit (s : string)
| Fmt (v : pyval)
| FmtExn (e : exn).

(** One call of [print]: the pieces of its argument. *)
Definition line : Type := list fragment.

(** [{e}] in an f-string, for an exception [e]: the formatting goes through
    [str(e)], and what [__str__] raises leaves the f-string. *)
Definition format_exn (e : exn) : result fragment :=
  match e with
  | UnprintableError _ raised_by_str => Raise raised_by_str
  | _ => Ok (FmtExn e)
  end.

(** Statements run in a state [S] and either return or raise. *)
Definition M (S A : Type) : Type := S -> result A * S.

#[global] Instance M_ret {S : Type} : MRet (M S) :=
  fun A (a : A) s => (Ok a, s).

#[global] Instance M_bind {S : Type} : MBind (M S) :=
  fun A B (f : A -> M S B) (m : M S A) s =>
    match m s with
    | (Ok a, s') => f a s'
    | (Raise e, s') => (Raise e, s')
    end.

(** [raise e] *)
Definition raise {S A : Type} (e : exn) : M S A := fun s => (Raise e, s).

(** Evaluate an expression whose outcome is known. *)
Definition eval {S A : Type} (r : result A) : M S A := fun s => (r, s).

(** [try: body / except cls as e: handler e], where [catches] is the class
    test of the clause. *)
Definition try_except {S A : Type} (catches : exn -> bool)
    (body : M S A) (handler : exn -> M S A) : M S A :=
  fun s =>
    match body s with
    | (Ok a, s') => (Ok a, s')
    | (Raise e, s') => if catches e then handler e s' else (Raise e, s')
    end.

(** [try: body / finally: cleanup]: the cleanup runs on every exit; an
    exception of the cleanup replaces the outcome of the body. *)
Definition try_finally {S A : Type} (body : M S A) (cleanup : M S unit) : M S A :=
  fun s =>
    match body s with
    | (r, s') =>
        match cleanup s' with
        | (Ok _, s'') => (r, s'')
        | (Raise e, s'') => (Raise e, s'')
        end
    end.

(** [v.get(key)]: a dict answers with the value or [None]; the other values
    of the model have no attribute [get]. *)
Definition method_get (v : pyval) (key : string) : result pyval :=
  match v with
  | PDict items =>
      Ok (match dict_lookup items key with Some x => x | None => PNone end)
  | PNone => Raise (AttributeError "'NoneType' object has no attribute 'get'")
  | PBool _ => Raise (AttributeError "'bool' object has no attribute 'get'")
  | PInt _ => Raise (AttributeError "'int' object has no attribute 'get'")
  | PStr _ => Raise (AttributeError "'str' object has no attribute 'get'")
  | PList _ => Raise (AttributeError "'list' object has no attribute 'get'")
  end.

(** [a or b]: [b] is evaluated only when [a] is false. *)
Definition py_or {S : Type} (a b : M S pyval) : M S pyval :=
  x ← a; if truthy x then mret x else b.

End Py.
Export Py.

(* ===================================================================== *)
(** * Part II. example_project/consumers.py *)
(* ===================================================================== *)

Module Consumers.

(** The handler a consumer is called with.  The consumers only use its
    public surface, so a handler is the outcome of each attribute read and
    accessor call: a value, or the exception it raises.  An accessor is
    taken to answer the same on every call. *)
Record Handler : Type := {
  channel : result pyval;
  data : result pyval;
  is_replay : result pyval;
  timestamp : result pyval;
  is_database_change : result pyval;
  get_table : result pyval;
  get_action : result pyval;
  get_record_id : result pyval;
  get_old_data : result pyval;
  get_new_data : result pyval
}.

(** Modelled from the spec: the class NotificationHandler of
    django_pgwatch.consumer is not part of the sources.  Its accessors are
    pure functions of the payload: they extract the field when present and
    answer [None] otherwise; [is_database_change] tests for the reserved
    sub-schema (table and action). *)
Definition NotificationHandler (chan : string) (payload : list (string * pyval))
    (replay : bool) (ts : pyval) : Handler :=
  let field key :=
    Ok (match dict_lookup payload key with Some v => v | None => PNone end) in
  {| channel := Ok (PStr chan);
     data := Ok (PDict payload);
     is_replay := Ok (PBool replay);
     timestamp := Ok ts;
     is_database_change :=
       Ok (PBool (match dict_lookup payload "table", dict_lookup payload "action" with
                  | Some _, Some _ => true
                  | _, _ => false
                  end));
     get_table := field "table";
     get_action := field "action";
     get_record_id := field "record_id";
     get_old_data := field "old_data";
     get_new_data := field "new_data" |}.

(** The state of a consumer call is what it has printed so far; writing
    to the standard output is taken to succeed. *)
Definition stdout : Type := list line.

Definition print (l : line) : M stdout unit := fun out => (Ok tt, out ++ [l]).

(** What a consumer class declares. *)
Record BaseConsumer : Type := {
  consumer_id : string;
  channels : list string;
  handle_notification : Handler -> M stdout unit
}.

Module UserChangeConsumer.

Definition consumer_id : string := "user_change_consumer".
Definition channels : list string := ["data_change"].

Definition send_welcome_email (user_data : pyval) : M stdout unit :=
  email ← eval (method_get user_data "email");
  print [Lit "   📨 Sending welcome email to "; Fmt email].

Definition handle_notification (handler : Handler) : M stdout unit :=
  table ← eval (get_table handler);
  if py_ne table (PStr "auth_user") then mret tt
  else
    action ← eval (get_action handler);
    user_data ← py_or (eval (get_new_data handler)) (eval (get_old_data handler));
    if py_eq action (PStr "INSERT") then
      username ← eval (method_get user_data "username");
      print [Lit "🆕 New user created: "; Fmt username];;
      send_welcome_email user_data
    else if py_eq action (PStr "UPDATE") then
      old_data ← eval (get_old_data handler);
      new_data ← eval (get_new_data handler);
      old_email ← eval (method_get old_data "email");
      new_email ← eval (method_get new_data "email");
      if py_ne old_email new_email then
        username ← eval (method_get new_data "username");
        print [Lit "📧 Email changed for "; Fmt username]
      else mret tt
    else if py_eq action (PStr "DELETE") then
      username ← eval (method_get user_data "username");
      print [Lit "🗑️ User deleted: "; Fmt username]
    else mret tt.

Definition consumer : BaseConsumer :=
  {| Consumers.consumer_id := consumer_id;
     Consumers.channels := channels;
     Consumers.handle_notification := handle_notification |}.

End UserChangeConsumer.

Module AnalyticsConsumer.

Definition consumer_id : string := "analytics_consumer".
Definition channels : list string := ["data_change"; "user_events"].

Definition track_database_change (handler : Handler) : M stdout unit :=
  table ← eval (get_table handler);
  action ← eval (get_action handler);
  record_id ← eval (get_record_id handler);
  ts ← eval (timestamp handler);
  let event_data :=
    PDict [("event_type", PStr "database_change");
           ("table", table);
           ("action", action);
           ("record_id", record_id);
           ("timestamp", ts)] in
  print [Lit "📈 Analytics: "; Fmt event_data].

Definition track_user_event (handler : Handler) : M stdout unit :=
  event_data ← eval (data handler);
  print [Lit "👤 User Event: "; Fmt event_data].

Definition handle_notification (handler : Handler) : M stdout unit :=
  try_except isinstance_Exception
    (chan ← eval (channel handler);
     if py_eq chan (PStr "data_change") then track_database_change handler
     else
       chan ← eval (channel handler);
       if py_eq chan (PStr "user_events") then track_user_event handler
       else mret tt)
    (fun e =>
       text ← eval (format_exn e);
       print [Lit "❌ Analytics tracking failed: "; text]).

Definition consumer : BaseConsumer :=
  {| Consumers.consumer_id := consumer_id;
     Consumers.channels := channels;
     Consumers.handle_notification := handle_notification |}.

End AnalyticsConsumer.

Section TableMonitor.

(** [str.title], a builtin of Python: it is left open here. *)
Variable str_title : string -> string.

(** The class the factory builds is the record of what it declares. *)
Definition create_table_monitor (table_name : string) : BaseConsumer :=
  {| consumer_id := table_name +:+ "_monitor";
     channels := ["data_change"];
     handle_notification := fun handler =>
       table ← eval (get_table handler);
       if py_eq table (PStr table_name) then
         action ← eval (get_action handler);
         record_id ← eval (get_record_id handler);
         print [Lit "🔍 "; Lit (str_title table_name); Lit " "; Fmt action;
                Lit ": ID "; Fmt record_id]
       else mret tt |}.

End TableMonitor.

(** [str.title] on ASCII text: the first letter of every run of letters in
    upper case, the others in lower case. *)
Definition is_lower (c : ascii) : bool :=
  let k := nat_of_ascii c in (97 <=? k)%nat && (k <=? 122)%nat.
Definition is_upper (c : ascii) : bool :=
  let k := nat_of_ascii c in (65 <=? k)%nat && (k <=? 90)%nat.
Definition to_upper (c : ascii) : ascii :=
  if is_lower c then ascii_of_nat (nat_of_ascii c - 32) else c.
Definition to_lower (c : ascii) : ascii :=
  if is_upper c then ascii_of_nat (nat_of_ascii c + 32) else c.

Fixpoint title_from (previous_is_cased : bool) (s : string) : string :=
  match s with
  | EmptyString => EmptyString
  | String c rest =>
      if is_lower c || is_upper c
      then String (if previous_is_cased then to_lower c else to_upper c)
                  (title_from true rest)
      else String c (title_from false rest)
  end.

Definition ascii_title (s : string) : string := title_from false s.

(** An outcome that the [except Exception] clause of [AnalyticsConsumer]
    handles to the end when it is an exception: the exception derives from
    [Exception], and formatting it for the message succeeds. *)
Definition ordinary (r : result pyval) : Prop :=
  ∀ e, r = Raise e -> isinstance_Exception e = true ∧ is_ok (format_exn e) = true.

(** A handler on which every read and call that [AnalyticsConsumer] makes
    either answers or raises an exception that derives from [Exception] and
    that [str] answers on. *)
Definition raises_only_printable_Exception (h : Handler) : Prop :=
  ordinary (channel h) ∧ ordinary (data h) ∧ ordinary (timestamp h) ∧
  ordinary (get_table h) ∧ ordinary (get_action h) ∧ ordinary (get_record_id h).

(** A handler on the channel [data_change] whose [get_table] is interrupted
    (Ctrl-C while the accessor runs). *)
Definition interrupted_handler : Handler :=
  {| channel := Ok (PStr "data_change");
     data := Ok (PDict []);
     is_replay := Ok (PBool false);
     timestamp := Ok PNone;
     is_database_change := Ok (PBool true);
     get_table := Raise KeyboardInterrupt;
     get_action := Ok (PStr "INSERT");
     get_record_id := Ok (PInt 7);
     get_old_data := Ok PNone;
     get_new_data := Ok PNone |}.

(** A handler on the channel [data_change] whose [get_table] fails with an
    exception of a class deriving from [Exception] whose [__str__] returns a
    number. *)
Definition unprintable_handler : Handler :=
  {| channel := Ok (PStr "data_change");
     data := Ok (PDict []);
     is_replay := Ok (PBool false);
     timestamp := Ok PNone;
     is_database_change := Ok (PBool true);
     get_table :=
       Raise (UnprintableError "TableError"
                (OtherException "TypeError" "__str__ returned non-string (type int)"));
     get_action := Ok (PStr "INSERT");
     get_record_id := Ok (PInt 7);
     get_old_data := Ok PNone;
     get_new_data := Ok PNone |}.

(** A handler whose accessors fail with an ordinary error. *)
Definition broken_handler : Handler :=
  {| channel := Ok (PStr "data_change");
     data := Ok (PDict []);
     is_replay := Ok (PBool false);
     timestamp := Ok PNone;
     is_database_change := Ok (PBool true);
     get_table := Raise (OtherException "KeyError" "'table'");
     get_action := Raise (OtherException "KeyError" "'action'");
     get_record_id := Raise (OtherException "KeyError" "'record_id'");
     get_old_data := Ok PNone;
     get_new_data := Ok PNone |}.

(** The scenario of the spec: an INSERT on [auth_user]. *)
Definition alice_insert : Handler :=
  NotificationHandler "data_change"
    [("table", PStr "auth_user"); ("action", PStr "INSERT"); ("record_id", PInt 7);
     ("new_data", PDict [("username", PStr "alice"); ("email", PStr "a@x.com")])]
    false PNone.

(** An UPDATE on [auth_user] whose payload carries no [old_data]. *)
Definition update_without_old_data : Handler :=
  NotificationHandler "data_change"
    [("table", PStr "auth_user"); ("action", PStr "UPDATE"); ("record_id", PInt 7);
     ("new_data", PDict [("username", PStr "alice"); ("email", PStr "a@x.com")])]
    false PNone.

(** [for x in xs: body x] *)
Fixpoint for_each {A : Type} (xs : list A) (body : A -> M stdout unit) : M stdout unit :=
  match xs with
  | [] => mret tt
  | x :: rest => body x;; for_each rest body
  end.

Module LoggingConsumer.

Definition consumer_id : string := "logging_consumer".
Definition channels : list string := ["data_change"].

Section WithStr.

(** [str(handler)], the [__str__] of the handler's class: it is left
    open here. *)
Variable handler_str : Handler -> result pyval.

Definition handle_notification (handler : Handler) : M stdout unit :=
  text ← eval (handler_str handler);
  print [Lit "📋 Notification received: "; Fmt text];;
  chan ← eval (channel handler);
  print [Lit "   Channel: "; Fmt chan];;
  payload ← eval (data handler);
  print [Lit "   Data: "; Fmt payload];;
  replay ← eval (is_replay handler);
  print [Lit "   Replay: "; Fmt replay];;
  is_change ← eval (is_database_change handler);
  if truthy is_change then
    print [Lit "   📊 Database Change:"];;
    table ← eval (get_table handler);
    print [Lit "      Table: "; Fmt table];;
    action ← eval (get_action handler);
    print [Lit "      Action: "; Fmt action];;
    record_id ← eval (get_record_id handler);
    print [Lit "      Record ID: "; Fmt record_id]
  else mret tt.

End WithStr.

End LoggingConsumer.

Module CacheInvalidationConsumer.

Definition consumer_id : string := "cache_invalidation_consumer".
Definition channels : list string := ["data_change"].

(** Generate cache keys to invalidate: each key is kept as the pieces of
    its f-string. *)
Definition cache_keys (table record_id : pyval) : list line :=
  [ [Fmt table; Lit ":"; Fmt record_id];
    [Fmt table; Lit ":list"];
    [Lit "stats:"; Fmt table] ].

Definition handle_notification (handler : Handler) : M stdout unit :=
  is_change ← eval (is_database_change handler);
  if negb (truthy is_change) then mret tt
  else
    table ← eval (get_table handler);
    record_id ← eval (get_record_id handler);
    print [Lit "🗄️ Invalidating cache for "; Fmt table; Lit ":"; Fmt record_id];;
    for_each (cache_keys table record_id)
      (fun key => print (Lit "   ❌ Clearing cache key: " :: key)).

End CacheInvalidationConsumer.

Module MultiChannelConsumer.

Definition consumer_id : string := "multi_channel_consumer".
Definition channels : list string := ["data_change"; "user_events"; "system_alerts"].

Definition handle_data_change (handler : Handler) : M stdout unit :=
  table ← eval (get_table handler);
  action ← eval (get_action handler);
  print [Lit "🔄 Data change: "; Fmt table; Lit " "; Fmt action].

Definition handle_user_event (handler : Handler) : M stdout unit :=
  payload ← eval (data handler);
  print [Lit "👤 User event: "; Fmt payload].

Definition handle_system_alert (handler : Handler) : M stdout unit :=
  payload ← eval (data handler);
  print [Lit "🚨 System alert: "; Fmt payload].

Definition handle_notification (handler : Handler) : M stdout unit :=
  chan ← eval (channel handler);
  if py_eq chan (PStr "data_change") then handle_data_change handler
  else
    chan ← eval (channel handler);
    if py_eq chan (PStr "user_events") then handle_user_event handler
    else
      chan ← eval (channel handler);
      if py_eq chan (PStr "system_alerts") then handle_system_alert handler
      else mret tt.

End MultiChannelConsumer.

(** The consumer ids the module declares statically, in source order. *)
Definition static_consumer_ids : list string :=
  [ LoggingConsumer.consumer_id; UserChangeConsumer.consumer_id;
    CacheInvalidationConsumer.consumer_id; AnalyticsConsumer.consumer_id;
    MultiChannelConsumer.consumer_id ].

(** [isinstance(v, dict)] *)
Definition is_dict (v : pyval) : bool :=
  match v with PDict _ => true | _ => false end.

(** The value of [handler.get_new_data() or handler.get_old_data()] when
    both calls return. *)
Definition new_or_old (new_data old_data : pyval) : pyval :=
  if truthy new_data then new_data else old_data.

(** [d.get(key)] on a value known to be a dict. *)
Definition get_or_None (v : pyval) (key : string) : pyval :=
  match v with
  | PDict items => match dict_lookup items key with Some x => x | None => PNone end
  | _ => PNone
  end.

End Consumers.

(* ===================================================================== *)
(** * Part III. test-matrix-docker.py *)
(* ===================================================================== *)

Module TestMatrix.

(** Test matrix from CI (excluding unsupported combinations) *)
Definition MATRIX : list (string * string) :=
  [ ("3.9", "4.2");
    ("3.10", "4.2"); ("3.10", "5.0"); ("3.10", "5.1");
    ("3.11", "4.2"); ("3.11", "5.0"); ("3.11", "5.1");
    ("3.12", "4.2"); ("3.12", "5.0"); ("3.12", "5.1") ].

(** The newline and the double quote, by their codes. *)
Definition NL : string := String (ascii_of_nat 10) EmptyString.
Definition DQ : string := String (ascii_of_nat 34) EmptyString.

(** [s * n] *)
Fixpoint str_repeat (s : string) (n : nat) : string :=
  match n with
  | O => EmptyString
  | S n' => s +:+ str_repeat s n'
  end.

(** [s.replace(c, '')] for a one-character [c]. *)
Fixpoint str_remove (c : ascii) (s : string) : string :=
  match s with
  | EmptyString => EmptyString
  | String x rest =>
      if Ascii.eqb x c then str_remove c rest else String x (str_remove c rest)
  end.

(** Create Dockerfile for specific Python/Django combination *)
Definition create_dockerfile (python_version django_version : string) : string :=
  String.concat EmptyString [
"
FROM python:"; python_version; "-slim

# Install system dependencies
RUN apt-get update && apt-get install -y \
    gcc \
    postgresql-client \
    && rm -rf /var/lib/apt/lists/*

# Set working directory
WORKDIR /app

# Copy project files
COPY . .

# Install dependencies
RUN pip install --upgrade pip && \
    pip install Django=="; django_version; " && \
    pip install -e .[dev]

# Set environment variables
ENV PYTHONPATH=.
ENV DJANGO_SETTINGS_MODULE=tests.settings
ENV POSTGRES_HOST=host.docker.internal
ENV POSTGRES_PORT=55235
ENV POSTGRES_USER=postgres
ENV POSTGRES_PASSWORD=postgres
ENV POSTGRES_DB=test_pgwatch

# Run the full CI pipeline
CMD ["; DQ; "bash"; DQ; ", "; DQ; "-c"; DQ; ", "; DQ; "\
    echo 'Running linting...' && \
    ruff check django_pgwatch tests && \
    echo 'Checking formatting...' && \
    ruff format --check django_pgwatch tests && \
    echo 'Running type checking...' && \
    mypy django_pgwatch && \
    echo 'Running Django migrations...' && \
    python -m django migrate && \
    echo 'Running tests...' && \
    pytest -v \
"; DQ; "]
" ].

(** [results[key] = value] on a dict kept as its items in insertion order:
    an existing key keeps its place. *)
Fixpoint dict_set {K V : Type} `{EqDecision K} (items : list (K * V)) (key : K) (value : V)
    : list (K * V) :=
  match items with
  | [] => [(key, value)]
  | (k, v) :: rest =>
      if decide (k = key) then (k, value) :: rest
      else (k, v) :: dict_set rest key value
  end.

(** [sum(bs)] for booleans: [True] counts 1. *)
Definition sum_bools (bs : list bool) : Z :=
  fold_left (fun acc (b : bool) => (acc + (if b then 1 else 0))%Z) bs 0%Z.

(** [subprocess.CompletedProcess] *)
Record CompletedProcess : Type := {
  args : string;
  returncode : Z;
  stdout : pyval;
  stderr : pyval
}.

(** Whether a string holds a NUL character. *)
Fixpoint has_NUL (s : string) : bool :=
  match s with
  | EmptyString => false
  | String c rest => Ascii.eqb c Ascii.zero || has_NUL rest
  end.

(** How a call into the operating system fails: with an ordinary error
    ([OSError] or one of its subclasses such as [FileNotFoundError] and
    [PermissionError], or a Unicode error of the locale's encoding), given by
    its class and message, or by the interruption of the call
    ([KeyboardInterrupt]). *)
Inductive os_failure : Type :=
| Errored (class_name msg : string)
| Interrupted.

(** The exception a failure of the operating system is raised as. *)
Definition exn_of (f : os_failure) : exn :=
  match f with
  | Errored class_name msg => OtherException class_name msg
  | Interrupted => KeyboardInterrupt
  end.

(** What a call into the operating system comes to. *)
Inductive os_result (A : Type) : Type :=
| Done (a : A)
| Refused (f : os_failure).
Arguments Done {A} a.
Arguments Refused {A} f.

(** Whether [subprocess.run] refuses the command before starting anything:
    the command or the working directory holds a NUL. *)
Definition embedded_NUL (cmd : string) (cwd : option string) : bool :=
  has_NUL cmd || match cwd with Some dir => has_NUL dir | None => false end.

Section WithOS.

(** The operating system the harness runs on: its state, and what each
    call does to it.  [os_shell cmd cwd] runs a command through the shell:
    the command exits with a status, having written bytes to its standard
    output and standard error, or it cannot be started or waited for.
    [os_decode] turns captured bytes into text in the encoding of the
    locale.  [os_mkstemp suffix] creates a temporary file and answers its
    path, [os_write path content] writes and closes it, [os_unlink path]
    removes it if it is there.  Every call can fail. *)
Variable World : Type.
Variable os_shell : string -> option string -> World -> os_result (Z * string * string) * World.
Variable os_decode : string -> os_result string.
Variable os_mkstemp : string -> World -> os_result string * World.
Variable os_write : string -> string -> World -> os_result unit * World.
Variable os_unlink : string -> World -> os_result unit * World.

(** The state of a run: the system, and what was printed. *)
Record St : Type := {
  world : World;
  printed : list line
}.

(** [print(..)]; writing to the standard output is taken to succeed. *)
Definition print (l : line) : M St unit :=
  fun s => (Ok tt, {| world := world s; printed := printed s ++ [l] |}).

(** A call into the operating system, as a statement: a failure is raised
    as its exception. *)
Definition os_call {A : Type} (call : World -> os_result A * World) : M St A :=
  fun s =>
    match call (world s) with
    | (Done a, w') => (Ok a, {| world := w'; printed := printed s |})
    | (Refused f, w') => (Raise (exn_of f), {| world := w'; printed := printed s |})
    end.

(** The decoding of what a command wrote, when it is captured
    ([text=True]): the standard output first, then the standard error. *)
Definition decode_output (capture_output : bool) (out err : string) : M St (pyval * pyval) :=
  if capture_output then
    o ← os_call (fun w => (os_decode out, w));
    e ← os_call (fun w => (os_decode err, w));
    mret (PStr o, PStr e)
  else mret (PNone, PNone).

(** [subprocess.run(cmd, shell=True, capture_output=.., text=True, cwd=..,
    check=..)], after the documentation of the standard library: a NUL in
    the command or in the working directory is refused with [ValueError]
    before anything is started; a command that cannot be started or waited
    for raises what the system answered; captured output is decoded, which
    raises when the bytes do not decode, whatever the exit status; the
    result holds the output only when it is captured ([None] otherwise), and
    with [check] a nonzero exit status raises [CalledProcessError] carrying
    the status, the command and the same output. *)
Definition subprocess_run (cmd : string) (capture_output : bool) (cwd : option string)
    (check : bool) : M St CompletedProcess :=
  if embedded_NUL cmd cwd
  then raise (OtherException "ValueError" "embedded null byte")
  else
    exited ← os_call (os_shell cmd cwd);
    captured ← decode_output capture_output exited.1.2 exited.2;
    let rc := exited.1.1 in
    if check && negb (Z.eqb rc 0)
    then raise (CalledProcessError rc cmd captured.1 captured.2)
    else mret {| args := cmd; returncode := rc;
                 stdout := captured.1; stderr := captured.2 |}.

(** [e.stdout] and [e.stderr] of a [CalledProcessError]. *)
Definition exn_stdout (e : exn) : pyval :=
  match e with CalledProcessError _ _ so _ => so | _ => PNone end.
Definition exn_stderr (e : exn) : pyval :=
  match e with CalledProcessError _ _ _ se => se | _ => PNone end.

(** Run command and return success/output *)
Definition run_cmd (cmd : string) (cwd : option string) (capture_output : bool)
    : M St (bool * pyval * pyval) :=
  try_except isinstance_CalledProcessError
    (result ← subprocess_run cmd capture_output cwd true;
     mret (true, stdout result, stderr result))
    (fun e =>
       mret (false,
             (if capture_output then exn_stdout e else PStr EmptyString),
             (if capture_output then exn_stderr e else PStr EmptyString))).

(** [with tempfile.NamedTemporaryFile(mode='w', suffix=.., delete=False) as f:
    f.write(content); path = f.name]: when the file cannot be created
    nothing is written, and when writing or closing fails the file is left
    where it is. *)
Definition write_tempfile (suffix content : string) : M St string :=
  path ← os_call (os_mkstemp suffix);
  os_call (os_write path content);;
  mret path.

(** [Path(path).unlink(missing_ok=True)] *)
Definition unlink (path : string) : M St unit :=
  os_call (os_unlink path).

(** Test one Python/Django combination in Docker *)
Definition test_combination (python_version django_version : string) : M St bool :=
  print [Lit (NL +:+ str_repeat "=" 60)];;
  print [Lit ("Testing Python " +:+ python_version +:+ " + Django " +:+ django_version)];;
  print [Lit (str_repeat "=" 60)];;
  let dockerfile_content := create_dockerfile python_version django_version in
  dockerfile_path ← write_tempfile ".dockerfile" dockerfile_content;
  try_finally
    (let image_name :=
       "pgwatch-test-py" +:+ str_remove "."%char python_version +:+
       "-dj" +:+ str_remove "."%char django_version in
     print [Lit ("Building Docker image: " +:+ image_name)];;
     let build_cmd :=
       "docker build -f " +:+ dockerfile_path +:+ " -t " +:+ image_name +:+ " ." in
     r ← run_cmd build_cmd None false;
     let success := r.1.1 in
     if negb success then
       print [Lit "‚ùå Failed to build image"];;
       mret false
     else
       print [Lit "Running tests in container..."];;
       let docker_run_cmd := "docker run --rm --network host " +:+ image_name in
       r ← run_cmd docker_run_cmd None false;
       let success := r.1.1 in
       if negb success then
         print [Lit ("‚ùå Python " +:+ python_version +:+ " + Django " +:+
                     django_version +:+ " FAILED")];;
         mret false
       else
         print [Lit ("‚úÖ Python " +:+ python_version +:+ " + Django " +:+
                     django_version +:+ " PASSED")];;
         mret true)
    (unlink dockerfile_path).

(** [for x in xs: body x] *)
Fixpoint for_in {A : Type} (xs : list A) (body : A -> M St unit) : M St unit :=
  match xs with
  | [] => mret tt
  | x :: rest => body x;; for_in rest body
  end.

(** The loop of [main] over the matrix, with the dict [results] it fills. *)
Fixpoint main_loop (matrix : list (string * string)) (results : list (string * string * bool))
    : M St (list (string * string * bool)) :=
  match matrix with
  | [] => mret results
  | (python_version, django_version) :: rest =>
      success ← test_combination python_version django_version;
      let results := dict_set results (python_version, django_version) success in
      (if negb success then
         print [Lit (NL +:+ "‚ö†Ô∏è  " +:+ python_version +:+ " + Django " +:+ django_version
                     +:+ " failed, continuing with remaining combinations...")]
       else mret tt);;
      main_loop rest results
  end.

(** Run all matrix combinations *)
Definition main : M St bool :=
  print [Lit "Checking PostgreSQL connection..."];;
  r ← run_cmd "docker exec pgwatch-postgres psql -U postgres -d test_pgwatch -c 'SELECT 1;'"
        None true;
  let success := r.1.1 in
  if negb success then
    print [Lit "‚ùå PostgreSQL not running. Please start it first:"];;
    print [Lit "docker run --name pgwatch-postgres -d -e POSTGRES_PASSWORD=postgres -e POSTGRES_USER=postgres -e POSTGRES_DB=test_pgwatch -p 55235:5432 postgres:15"];;
    mret false
  else
    results ← main_loop MATRIX [];
    print [Lit (NL +:+ str_repeat "=" 60)];;
    print [Lit "SUMMARY"];;
    print [Lit (str_repeat "=" 60)];;
    let passed := sum_bools (map snd results) in
    let total := Z.of_nat (length results) in
    for_in results (fun item =>
      let status := if item.2 then "‚úÖ PASS" else "‚ùå FAIL" in
      print [Lit ("Python " +:+ item.1.1 +:+ " + Django " +:+ item.1.2 +:+ ": " +:+ status)]);;
    print [Lit (NL +:+ "Total: "); Fmt (PInt passed); Lit "/"; Fmt (PInt total);
           Lit " combinations tested"];;
    if Z.eqb passed (Z.of_nat (length results)) then
      print [Lit "üéâ All tested combinations passed!"];;
      mret true
    else
      print [Lit "üí• "; Fmt (PInt (Z.of_nat (length results) - passed));
             Lit " combinations failed"];;
      mret false.

(** [if __name__ == "__main__": success = main(); sys.exit(0 if success
    else 1)]: [sys.exit] raises [SystemExit] with the status. *)
Definition script_main : M St unit :=
  success ← main;
  raise (A := unit) (SystemExit (if success : bool then 0%Z else 1%Z)).

(** The reading of "[main] invokes [test_combination] exactly once for
    each pair, in order and without stopping early on a failure" that the
    theorem on [main] is stated with.  [called_in_order matrix s values
    raised s'] holds when, from state [s], [test_combination] was called on
    the pairs of [matrix] in turn, each call on the system as the call before
    left it: [values] are what the calls returned, in order; [raised] is the
    exception of the call that raised, if one did, and no call follows it;
    [s'] is the state the last call left. *)
Inductive called_in_order :
    list (string * string) -> St -> list bool -> option exn -> St -> Prop :=
| called_none (s : St) :
    called_in_order [] s [] None s
| called_raised (python_version django_version : string) (rest : list (string * string))
    (s s1 : St) (e : exn) :
    test_combination python_version django_version s = (Raise e, s1) ->
    called_in_order ((python_version, django_version) :: rest) s [] (Some e) s1
| called_returned (python_version django_version : string) (rest : list (string * string))
    (s s1 s2 s' : St) (success : bool) (values : list bool) (raised : option exn) :
    test_combination python_version django_version s = (Ok success, s1) ->
    world s2 = world s1 ->
    called_in_order rest s2 values raised s' ->
    called_in_order ((python_version, django_version) :: rest) s (success :: values) raised s'.

End WithOS.

Arguments world {World} s.
Arguments printed {World} s.
Arguments Build_St {World} world printed.

(** ** Systems for the scenarios *)

(** The state of these systems is the log of what was asked of them: the
    commands given to the shell and the files created and removed. *)
Inductive os_event : Type :=
| Shell (cmd : string)
| Created (path : string)
| Written (path : string)
| Removed (path : string).

(** A shell on which every command exits with the status [rc], silently. *)
Definition shell_exiting (rc : Z) (cmd : string) (cwd : option string) (w : list os_event)
    : os_result (Z * string * string) * list os_event :=
  (Done (rc, EmptyString, EmptyString), w ++ [Shell cmd]).

(** A shell on which every command exits with the status [rc] after writing
    the byte 255 to its standard output. *)
Definition shell_writing_255 (rc : Z) (cmd : string) (cwd : option string)
    (w : list os_event) : os_result (Z * string * string) * list os_event :=
  (Done (rc, String (ascii_of_nat 255) EmptyString, EmptyString), w ++ [Shell cmd]).

(** Decoding in the ASCII encoding: a byte above 127 does not decode. *)
Fixpoint is_ascii (s : string) : bool :=
  match s with
  | EmptyString => true
  | String c rest => (nat_of_ascii c <? 128)%nat && is_ascii rest
  end.

Definition ascii_decode (bytes : string) : os_result string :=
  if is_ascii bytes then Done bytes
  else Refused (Errored "UnicodeDecodeError" "'ascii' codec can't decode byte").

(** Temporary files that work: always the same path. *)
Definition mkstemp_ok (suffix : string) (w : list os_event)
    : os_result string * list os_event :=
  (Done ("/tmp/tmp0" +:+ suffix), w ++ [Created ("/tmp/tmp0" +:+ suffix)]).

Definition write_ok (path content : string) (w : list os_event)
    : os_result unit * list os_event :=
  (Done tt, w ++ [Written path]).

Definition unlink_ok (path : string) (w : list os_event) : os_result unit * list os_event :=
  (Done tt, w ++ [Removed path]).

(** No usable temporary directory. *)
Definition mkstemp_failing (suffix : string) (w : list os_event)
    : os_result string * list os_event :=
  (Refused (Errored "FileNotFoundError" "No usable temporary directory found"), w).

End TestMatrix.

(* ===================================================================== *)
(** * Part IV. The notification dispatch engine *)
(* ===================================================================== *)

Module Engine.

(** ** Data model *)

(** Modelled from the spec: the package django_pgwatch (the engine the
    example consumers are written against) is not part of the sources.
    A payload is a mapping of string keys to values. *)
Definition Payload : Type := list (string * pyval).

(** Modelled from the spec: section 3, Notification, the unit of delivery
    (the engine is missing from the sources).  The sequence is assigned by
    the OutboxStore at write time, the timestamp at persistence time. *)
Record Notification : Type := {
  sequence : nat;
  channel : string;
  payload : Payload;
  created_at : nat
}.

(** ** OutboxStore *)

(** Modelled from the spec: section 4.1 and the persisted layout of section
    6 (the OutboxStore is missing from the sources).  The log is append-only
    and kept in append order; [counters] holds, per channel, the highest
    sequence assigned so far, so that a sequence is never reused, even after
    trimming.  Storage outages (PersistenceError) are outside the model: the
    store is taken to be available. *)
Record OutboxStore : Type := {
  rows : list Notification;
  counters : gmap string nat
}.

Definition empty_store : OutboxStore := {| rows := []; counters := ∅ |}.

(** Modelled from the spec: [max_sequence(channel) -> sequence] of the
    missing OutboxStore; a channel nothing was published on is at the
    floor 0. *)
Definition max_sequence (s : OutboxStore) (c : string) : nat :=
  default 0 (counters s !! c).

(** Modelled from the spec: [append(channel, payload) -> sequence] of the
    missing OutboxStore.  The sequence is assigned together with the write;
    [ts] is the time of the call. *)
Definition append (ts : nat) (c : string) (p : Payload) (s : OutboxStore)
    : nat * OutboxStore :=
  let seq := S (max_sequence s c) in
  (seq,
   {| rows := rows s ++ [ {| sequence := seq; channel := c; payload := p; created_at := ts |} ];
      counters := <[c := seq]> (counters s) |}).

(** Modelled from the spec: [read_range(channel, after_sequence, limit)] of
    the missing OutboxStore: the notifications of the channel past
    [after_sequence], in log order, at most [limit] of them ([None] is no
    limit). *)
Definition read_range (s : OutboxStore) (c : string) (after_sequence : nat)
    (limit : option nat) : list Notification :=
  let found := filter (λ n, channel n = c ∧ after_sequence < sequence n) (rows s) in
  match limit with
  | Some k => take k found
  | None => found
  end.

(** ** ConsumerRegistry *)

(** Modelled from the spec: [replay_from ∈ {EARLIEST, CURRENT}] of
    [register] (the registry is missing from the sources). *)
Inductive replay_from : Type := EARLIEST | CURRENT.

(** Modelled from the spec: the callback of the consumer registration
    surface of section 6, [handle(handler) -> void], which may fail (the
    engine that calls it is missing from the sources).  It is the
    [handle_notification] of a consumer class. *)
Definition Callback : Type := Consumers.Handler -> M Consumers.stdout unit.

(** Modelled from the spec: section 3, ConsumerRegistration, with the
    callback of the registration record of section 9 (the registry is
    missing from the sources). *)
Record Registration : Type := {
  reg_channels : gset string;
  reg_callback : Callback
}.

(** Modelled from the spec: section 4.2 (the ConsumerRegistry is missing
    from the sources): the registrations by consumer id, and the checkpoint
    table keyed by (consumer_id, channel) with a single integer cursor. *)
Record ConsumerRegistry : Type := {
  registrations : gmap string Registration;
  checkpoints : gmap (string * string) nat
}.

Definition empty_registry : ConsumerRegistry :=
  {| registrations := ∅; checkpoints := ∅ |}.

(** Modelled from the spec: [checkpoint(consumer_id, channel) -> sequence]
    of the missing registry; a pair without a checkpoint reads as the
    floor 0. *)
Definition checkpoint (r : ConsumerRegistry) (cid c : string) : nat :=
  default 0 (checkpoints r !! (cid, c)).

(** Modelled from the spec: CheckpointError of the taxonomy of section 7
    (the engine is missing from the sources), with the pair, the current
    checkpoint and the rejected sequence. *)
Inductive error : Type :=
| CheckpointError (cid c : string) (current attempted : nat).

(** Modelled from the spec: [advance_checkpoint(consumer_id, channel,
    sequence)] of the missing registry: rejected with CheckpointError if
    [sequence < current checkpoint], otherwise the cursor moves to
    [sequence]. *)
Definition advance_checkpoint (cid c : string) (seq : nat) (r : ConsumerRegistry)
    : (error + unit) * ConsumerRegistry :=
  let current := checkpoint r cid c in
  if decide (seq < current)%nat
  then (inl (CheckpointError cid c current seq), r)
  else (inr tt,
        {| registrations := registrations r;
           checkpoints := <[(cid, c) := seq]> (checkpoints r) |}).

(** Modelled from the spec: the checkpoint a first registration creates
    on a channel (lifecycle of ConsumerCheckpoint, section 3): zero for
    full history, the channel's current maximum sequence otherwise. *)
Definition initial_checkpoint (s : OutboxStore) (from : replay_from) (c : string) : nat :=
  match from with
  | EARLIEST => 0
  | CURRENT => max_sequence s c
  end.

(** Modelled from the spec: [register(consumer_id, channels, replay_from)]
    of the missing registry.  Registering replaces the subscriptions of the
    id; a checkpoint is created for each channel that has none, and existing
    checkpoints are kept. *)
Definition register (s : OutboxStore) (cid : string) (chans : gset string)
    (from : replay_from) (cb : Callback) (r : ConsumerRegistry) : ConsumerRegistry :=
  {| registrations :=
       <[cid := {| reg_channels := chans; reg_callback := cb |}]> (registrations r);
     checkpoints :=
       foldr (λ c cps,
                match cps !! (cid, c) with
                | Some _ => cps
                | None => <[(cid, c) := initial_checkpoint s from c]> cps
                end)
             (checkpoints r) (elements chans) |}.

(** Modelled from the spec: [subscribers_for(channel) -> set of
    consumer_id] of the missing registry. *)
Definition subscribers_for (r : ConsumerRegistry) (c : string) : gset string :=
  dom (filter (λ kv, c ∈ reg_channels kv.2) (registrations r)).

(** Modelled from the spec: [deregister(consumer_id)] of the missing
    registry, removing registration and checkpoints. *)
Definition deregister (cid : string) (r : ConsumerRegistry) : ConsumerRegistry :=
  {| registrations := delete cid (registrations r);
     checkpoints := filter (λ kv, kv.1.1 ≠ cid) (checkpoints r) |}.

(** The least element of a list, when there is one. *)
Definition min_list (l : list nat) : option nat :=
  match l with
  | [] => None
  | x :: l' => Some (foldr Nat.min x l')
  end.

(** Modelled from the spec: the minimum checkpoint across all registered
    consumers on a channel, which bounds [trim] (section 4.1); there is none
    when the channel has no subscriber. *)
Definition min_checkpoint (r : ConsumerRegistry) (c : string) : option nat :=
  min_list ((λ cid, checkpoint r cid c) <$> elements (subscribers_for r c)).

(** Modelled from the spec: what [trim] may remove (section 4.1): a
    notification on the channel, older than the boundary, and at or below
    the minimum checkpoint (nothing is, when no consumer is registered on
    the channel). *)
Definition removable (r : ConsumerRegistry) (c : string) (before_sequence : nat)
    (n : Notification) : bool :=
  bool_decide (channel n = c) && (sequence n <? before_sequence)%nat &&
  match min_checkpoint r c with
  | Some m => (sequence n <=? m)%nat
  | None => false
  end.

(** Modelled from the spec: [trim(channel, before_sequence)] of the missing
    OutboxStore, consulting the registry for the checkpoints. *)
Definition trim (r : ConsumerRegistry) (c : string) (before_sequence : nat)
    (s : OutboxStore) : OutboxStore :=
  {| rows := filter (λ n, removable r c before_sequence n = false) (rows s);
     counters := counters s |}.

(** ** The engine: Dispatcher, ReplayCoordinator, NotificationListener *)

(** Modelled from the spec: the state machine of the NotificationListener
    of section 4.3 (missing from the sources). *)
Inductive listener_state : Type := DISCONNECTED | CONNECTING | SUBSCRIBED.

#[global] Instance listener_state_eq_dec : EqDecision listener_state.
Proof. solve_decision. Defined.

(** One invocation of a consumer's callback: what the consumer observed,
    on which path, and the error it answered with, if any. *)
Record Delivery : Type := {
  d_consumer : string;
  d_notification : Notification;
  d_is_replay : bool;
  d_failure : option exn
}.

(** Modelled from the spec: what the engine logs (sections 4.2 and 4.5):
    a failed callback with (consumer_id, channel, sequence, error), and a
    rejected checkpoint. *)
Inductive log_entry : Type :=
| ConsumerError (cid c : string) (seq : nat) (e : exn)
| CheckpointRejected (err : error).

(** Modelled from the spec: the per-consumer outcome of [deliver]
    (section 4.5); [Deferred] is a live notification left to the next
    catch-up of a consumer that is not live on the channel (section 4.4). *)
Inductive outcome : Type :=
| Delivered
| Failed (e : exn)
| Rejected (err : error)
| Deferred
| NotRegistered.

(** Modelled from the spec: the engine of sections 2 and 4 as one state
    (it is missing from the sources): the store and the registry it owns,
    the state of the listener, the batch size of the ReplayCoordinator
    (at least 1), what the callbacks have printed, the invocations of
    callbacks so far, and the log of failures.  Events are taken one at a
    time, which is what the per-(consumer, channel) ordering lock of
    section 5 enforces. *)
Record Engine : Type := {
  store : OutboxStore;
  registry : ConsumerRegistry;
  listener : listener_state;
  batch_size : positive;
  console : Consumers.stdout;
  deliveries : list Delivery;
  error_log : list log_entry
}.

Definition init (batch : positive) : Engine :=
  {| store := empty_store; registry := empty_registry; listener := DISCONNECTED;
     batch_size := batch; console := []; deliveries := []; error_log := [] |}.

Definition set_store (s : OutboxStore) (e : Engine) : Engine :=
  {| store := s; registry := registry e; listener := listener e;
     batch_size := batch_size e; console := console e;
     deliveries := deliveries e; error_log := error_log e |}.

Definition set_registry (r : ConsumerRegistry) (e : Engine) : Engine :=
  {| store := store e; registry := r; listener := listener e;
     batch_size := batch_size e; console := console e;
     deliveries := deliveries e; error_log := error_log e |}.

Definition set_listener (l : listener_state) (e : Engine) : Engine :=
  {| store := store e; registry := registry e; listener := l;
     batch_size := batch_size e; console := console e;
     deliveries := deliveries e; error_log := error_log e |}.

Definition log_error (entry : log_entry) (e : Engine) : Engine :=
  {| store := store e; registry := registry e; listener := listener e;
     batch_size := batch_size e; console := console e;
     deliveries := deliveries e; error_log := error_log e ++ [entry] |}.

(** The callback has run on [n]: record what it printed and the delivery. *)
Definition record_delivery (out : Consumers.stdout) (d : Delivery) (e : Engine) : Engine :=
  {| store := store e; registry := registry e; listener := listener e;
     batch_size := batch_size e; console := out;
     deliveries := deliveries e ++ [d]; error_log := error_log e |}.

(** Modelled from the spec: the handler a callback receives (section 3,
    NotificationHandler): derived from the notification plus the
    [is_replay] flag of the path that produced it. *)
Definition handler_of (n : Notification) (is_replay : bool) : Consumers.Handler :=
  Consumers.NotificationHandler (channel n) (payload n) is_replay
    (PInt (Z.of_nat (created_at n))).

(** Modelled from the spec: the individually wrapped consumer invocation
    of the Dispatcher of section 4.5 (missing from the sources): an error of
    the callback is caught and logged with (consumer_id, channel, sequence,
    error). *)
Definition invoke (cid : string) (n : Notification) (is_replay : bool) (e : Engine)
    : outcome * Engine :=
  match registrations (registry e) !! cid with
  | None => (NotRegistered, e)
  | Some reg =>
      match reg_callback reg (handler_of n is_replay) (console e) with
      | (Ok _, out) =>
          (Delivered,
           record_delivery out
             {| d_consumer := cid; d_notification := n; d_is_replay := is_replay;
                d_failure := None |} e)
      | (Raise ex, out) =>
          (Failed ex,
           log_error (ConsumerError cid (channel n) (sequence n) ex)
             (record_delivery out
                {| d_consumer := cid; d_notification := n; d_is_replay := is_replay;
                   d_failure := Some ex |} e))
      end
  end.

(** Modelled from the spec: [advance_checkpoint] on the registry of the
    engine; a rejection is logged, never silently ignored (section 4.2). *)
Definition engine_advance (cid c : string) (seq : nat) (e : Engine)
    : (error + unit) * Engine :=
  match advance_checkpoint cid c seq (registry e) with
  | (inl err, r) => (inl err, log_error (CheckpointRejected err) (set_registry r e))
  | (inr u, r) => (inr u, set_registry r e)
  end.

(** Modelled from the spec: whether a consumer is behind on the channel
    of [n]: the oldest notification it has pending there is older than [n].
    Such a consumer is not live on the channel: it goes live only once
    [catch_up] observes no remaining backlog (section 4.4), and until then a
    live notification is but a hint that new data exists (section 4.3). *)
Definition behind (cid : string) (n : Notification) (e : Engine) : bool :=
  match read_range (store e) (channel n) (checkpoint (registry e) cid (channel n))
                   (Some 1) with
  | oldest :: _ => (sequence oldest <? sequence n)%nat
  | [] => false
  end.

(** Modelled from the spec: delivery of one notification to one
    subscriber (section 4.5): the checkpoint of the consumer advances only
    when its callback succeeded; a failing consumer's checkpoint is not
    advanced.  A consumer that is behind is left to its next catch-up, which
    serves it in sequence order: its checkpoint never moves past a
    notification it failed on, so that every failure path re-delivers and
    none discards a notification (sections 4.5 and 7). *)
Definition deliver_to (cid : string) (n : Notification) (is_replay : bool) (e : Engine)
    : outcome * Engine :=
  if behind cid n e then (Deferred, e)
  else
    match invoke cid n is_replay e with
    | (Delivered, e1) =>
        match engine_advance cid (channel n) (sequence n) e1 with
        | (inl err, e2) => (Rejected err, e2)
        | (inr _, e2) => (Delivered, e2)
        end
    | (o, e1) => (o, e1)
    end.

(** Modelled from the spec: [deliver(notification, is_replay) ->
    per-consumer outcome] of the missing Dispatcher: every subscriber of the
    channel is invoked, whatever happened to the others. *)
Definition deliver (n : Notification) (is_replay : bool) (e : Engine)
    : list (string * outcome) * Engine :=
  foldl (λ acc cid,
           match deliver_to cid n is_replay acc.2 with
           | (o, e') => (acc.1 ++ [(cid, o)], e')
           end)
        ([], e) (elements (subscribers_for (registry e) (channel n))).

(** Modelled from the spec: a replayed batch for one consumer (section
    4.4), in order, each notification through the wrapped invocation of the
    Dispatcher; the batch stops at the first failure and the checkpoint is
    left to the caller (batch-level atomicity). *)
Fixpoint deliver_batch (cid : string) (batch : list Notification) (e : Engine)
    : bool * Engine :=
  match batch with
  | [] => (true, e)
  | n :: rest =>
      match invoke cid n true e with
      | (Delivered, e') => deliver_batch cid rest e'
      | (_, e') => (false, e')
      end
  end.

(** Modelled from the spec: the loop of [catch_up] on one channel (the
    ReplayCoordinator is missing from the sources): read a batch past the
    checkpoint, deliver it with [is_replay = true], advance the checkpoint
    after a successful batch, until no backlog remains.  A failed batch
    leaves the checkpoint where it was and ends the catch-up of the
    channel.  [fuel] bounds the number of batches. *)
Fixpoint catch_up_channel (fuel : nat) (cid c : string) (e : Engine) : Engine :=
  match fuel with
  | O => e
  | S fuel' =>
      let batch :=
        read_range (store e) c (checkpoint (registry e) cid c)
                   (Some (Pos.to_nat (batch_size e))) in
      match last batch with
      | None => e
      | Some newest =>
          match deliver_batch cid batch e with
          | (true, e1) =>
              match engine_advance cid c (sequence newest) e1 with
              | (inr _, e2) => catch_up_channel fuel' cid c e2
              | (inl _, e2) => e2
              end
          | (false, e1) => e1
          end
      end
  end.

(** Modelled from the spec: [catch_up(consumer_id)] of the missing
    ReplayCoordinator, over each of the consumer's subscribed channels.
    Every batch holds at least one stored notification, so one more batch
    than there are rows is enough. *)
Definition catch_up (cid : string) (e : Engine) : Engine :=
  match registrations (registry e) !! cid with
  | None => e
  | Some reg =>
      foldl (λ e' c, catch_up_channel (S (length (rows (store e')))) cid c e')
            e (elements (reg_channels reg))
  end.

(** Modelled from the spec: on re-entering SUBSCRIBED the listener has
    the ReplayCoordinator reconcile every registered consumer (section
    4.3). *)
Definition catch_up_all (e : Engine) : Engine :=
  foldl (λ e' cid, catch_up cid e') e (elements (dom (registrations (registry e)))).

(** Modelled from the spec: [publish(channel, payload) -> sequence], the
    ingestion entry point of section 6 (missing from the sources): the
    write into the store, and the live signal, which reaches the Dispatcher
    only while the listener is SUBSCRIBED. *)
Definition publish (ts : nat) (c : string) (p : Payload) (e : Engine) : nat * Engine :=
  match append ts c p (store e) with
  | (seq, s') =>
      let n := {| sequence := seq; channel := c; payload := p; created_at := ts |} in
      let e1 := set_store s' e in
      if decide (listener e = SUBSCRIBED)
      then (seq, (deliver n false e1).2)
      else (seq, e1)
  end.

(** Modelled from the spec: what can happen to the engine: the calls of
    its interfaces (sections 4 and 6), the triggers of [catch_up] (section
    4.4) and the transitions of the listener (section 4.3). *)
Inductive event : Type :=
| Publish (ts : nat) (c : string) (p : Payload)
| Register (cid : string) (chans : gset string) (from : replay_from) (cb : Callback)
| Deregister (cid : string)
| CatchUp (cid : string)
| Trim (c : string) (before_sequence : nat)
| Advance (cid c : string) (seq : nat)
| Connect
| Subscribe
| TransportError.

(** Modelled from the spec: the effect of one event.  A registration
    triggers the catch-up of the consumer; a publish reaches the
    subscribers live only while the listener is SUBSCRIBED; the listener
    goes DISCONNECTED -> CONNECTING -> SUBSCRIBED and back to DISCONNECTED on
    a transport error. *)
Definition step (ev : event) (e : Engine) : Engine :=
  match ev with
  | Publish ts c p => (publish ts c p e).2
  | Register cid chans from cb =>
      catch_up cid (set_registry (register (store e) cid chans from cb (registry e)) e)
  | Deregister cid => set_registry (deregister cid (registry e)) e
  | CatchUp cid => catch_up cid e
  | Trim c before_sequence => set_store (trim (registry e) c before_sequence (store e)) e
  | Advance cid c seq => (engine_advance cid c seq e).2
  | Connect =>
      if decide (listener e = DISCONNECTED) then set_listener CONNECTING e else e
  | Subscribe =>
      if decide (listener e = CONNECTING) then catch_up_all (set_listener SUBSCRIBED e)
      else e
  | TransportError => set_listener DISCONNECTED e
  end.

(** A run of the engine: the events in turn. *)
Definition run (evs : list event) (e : Engine) : Engine :=
  foldl (λ e' ev, step ev e') e evs.

(** The sequences the publishes of a run assigned on a channel. *)
Fixpoint assigned (c : string) (evs : list event) (e : Engine) : list nat :=
  match evs with
  | [] => []
  | ev :: rest =>
      match ev with
      | Publish ts c' p =>
          if decide (c' = c) then [(publish ts c' p e).1] else []
      | _ => []
      end ++ assigned c rest (step ev e)
  end.



(** ** Scenarios *)

(** The example consumers, registered with the engine. *)
Definition user_change : Registration :=
  {| reg_channels := list_to_set Consumers.UserChangeConsumer.channels;
     reg_callback := Consumers.UserChangeConsumer.handle_notification |}.

Definition analytics : Registration :=
  {| reg_channels := list_to_set Consumers.AnalyticsConsumer.channels;
     reg_callback := Consumers.AnalyticsConsumer.handle_notification |}.

(** The payloads of the spec's scenario and of an UPDATE without
    [old_data]. *)
Definition alice_insert : Payload :=
  [("table", PStr "auth_user"); ("action", PStr "INSERT"); ("record_id", PInt 7);
   ("new_data", PDict [("username", PStr "alice"); ("email", PStr "a@x.com")])].

Definition alice_update : Payload :=
  [("table", PStr "auth_user"); ("action", PStr "UPDATE"); ("record_id", PInt 7);
   ("new_data", PDict [("username", PStr "alice"); ("email", PStr "alice@x.com")])].



(** Three publishes while nobody listens. *)
Definition three_published : Engine :=
  run [Publish 1 "data_change" alice_insert;
       Publish 2 "user_events" [("event", PStr "login")];
       Publish 3 "data_change" alice_update;
       Publish 4 "data_change" alice_insert] (init 2).

(** What then happens, once the analytics consumer has registered. *)
Definition later_events : list event :=
  [Connect; Subscribe;
   Publish 5 "data_change" alice_update;
   Register "user_change_consumer" (list_to_set Consumers.UserChangeConsumer.channels)
     EARLIEST Consumers.UserChangeConsumer.handle_notification;
   TransportError;
   Publish 6 "data_change" alice_insert;
   Trim "user_events" 10;
   CatchUp "user_change_consumer"].

(** A registry with two consumers on [data_change], at checkpoints 2 and
    1, and a store with three notifications. *)
Definition lagging_registry : ConsumerRegistry :=
  {| registrations :=
       <["analytics_consumer" := analytics]>
         (<["user_change_consumer" := user_change]> ∅);
     checkpoints :=
       <[("analytics_consumer", "data_change") := 2]>
         (<[("user_change_consumer", "data_change") := 1]> ∅) |}.

Definition three_rows : OutboxStore :=
  {| rows := [ {| sequence := 1; channel := "data_change"; payload := alice_insert;
                  created_at := 1 |};
               {| sequence := 2; channel := "data_change"; payload := alice_update;
                  created_at := 2 |};
               {| sequence := 3; channel := "data_change"; payload := alice_insert;
                  created_at := 3 |} ];
     counters := {["data_change" := 3]} |}.

(** ** Invariants and frames *)

(** Increasing sequence order. *)
Definition seq_lt (a b : Notification) : Prop := sequence a < sequence b.

(** The notifications of a channel, in log order. *)
Definition on_channel (c : string) (s : OutboxStore) : list Notification :=
  filter (λ n, channel n = c) (rows s).

(** The invariant of the store: within a channel the log is in strictly
    increasing sequence order, and every sequence is at least 1 and at most
    the counter of its channel. *)
Definition store_wf (s : OutboxStore) : Prop :=
  (∀ c, StronglySorted seq_lt (on_channel c s)) ∧
  Forall (λ n, 0 < sequence n ≤ max_sequence s (channel n)) (rows s).

(** What the delivery paths do to the engine: from [e] to [e'] the store,
    the registrations, the listener and the batch size are the same, no
    checkpoint went down, and only the (consumer, channel) pairs in [P] saw
    a checkpoint change or a delivery. *)
Record touches (P : string -> string -> Prop) (e e' : Engine) : Prop := {
  t_store : store e' = store e;
  t_regs : registrations (registry e') = registrations (registry e);
  t_listener : listener e' = listener e;
  t_batch : batch_size e' = batch_size e;
  t_mono : ∀ cid c, checkpoint (registry e) cid c ≤ checkpoint (registry e') cid c;
  t_others : ∀ cid c, ¬ P cid c ->
    checkpoints (registry e') !! (cid, c) = checkpoints (registry e) !! (cid, c);
  t_deliveries : ∃ new,
    deliveries e' = deliveries e ++ new ∧
    Forall (λ d, P (d_consumer d) (channel (d_notification d))) new
}.







(** An event that does not de-register [cid]. *)
Definition keeps (cid : string) (ev : event) : Prop :=
  match ev with
  | Deregister cid' => cid' ≠ cid
  | _ => True
  end.




End Engine.

(* ===================================================================== *)
(** * Part V. Properties of the example consumers *)
(* ===================================================================== *)

Section ConsumerProperties.

Import Consumers.

(** Unfolding of the statement monad. *)
Lemma bind_Ok {S A B : Type} (m : M S A) (f : A -> M S B) (s s' : S) (a : A) :
  m s = (Ok a, s') -> (m ≫= f) s = f a s'.
Proof. intros H. unfold mbind, M_bind. by rewrite H. Qed.

Lemma bind_Raise {S A B : Type} (m : M S A) (f : A -> M S B) (s s' : S) (e : exn) :
  m s = (Raise e, s') -> (m ≫= f) s = (Raise e, s').
Proof. intros H. unfold mbind, M_bind. by rewrite H. Qed.

Lemma bind_eval {S A B : Type} (r : result A) (f : A -> M S B) (s : S) :
  (eval r ≫= f) s = match r with Ok a => f a s | Raise e => (Raise e, s) end.
Proof. unfold mbind, M_bind, eval. by destruct r. Qed.

(** [v == 'text'] holds of the string itself and of nothing else. *)
Lemma py_eq_PStr (v : pyval) (s : string) : py_eq v (PStr s) = true <-> v = PStr s.
Proof.
  destruct v; simpl; try (split; [discriminate | discriminate]).
  rewrite String.eqb_eq. split; [intros -> | intros [= ->]]; done.
Qed.

Lemma py_eq_PStr_false (v : pyval) (s : string) : v ≠ PStr s -> py_eq v (PStr s) = false.
Proof.
  intros Hne. destruct (py_eq v (PStr s)) eqn:E; [|done].
  by apply py_eq_PStr in E.
Qed.


(** What the [except Exception] clause of [AnalyticsConsumer] does with
    an exception it caught. *)
Lemma bind_format_exn {B : Type} (e : exn) (f : fragment -> M stdout B) (out : stdout) :
  (eval (format_exn e) ≫= f) out
  = match format_exn e with Ok text => f text out | Raise e' => (Raise e', out) end.
Proof. apply bind_eval. Qed.

(** C6, as stated, fails: an exception that does not derive from
    [Exception] (here [KeyboardInterrupt], raised while [get_table] runs)
    passes through the [except Exception] clause of
    [AnalyticsConsumer.handle_notification] and reaches the caller. *)
Lemma analytics_handle_notification_lets_KeyboardInterrupt_through :
  ¬ (∀ (h : Handler) (out : stdout),
       is_ok (AnalyticsConsumer.handle_notification h out).1 = true).
Proof.
  intros H. specialize (H interrupted_handler []).
  vm_compute in H. discriminate.
Qed.

(** C6, amended: on every handler whose reads and accessors raise nothing
    but exceptions that derive from [Exception] and that [str] answers on,
    [AnalyticsConsumer.handle_notification] returns normally; whatever was
    raised while dispatching was caught and is not re-raised.  Both
    conditions are needed: an exception that does not derive from
    [Exception] is not caught, and one whose [__str__] raises makes the
    [except] clause itself fail, at the handler with the [TableError]. *)
Theorem analytics_handle_notification_catches_Exception :
  (∀ (h : Handler) (out : stdout),
     raises_only_printable_Exception h ->
     ∃ out', AnalyticsConsumer.handle_notification h out = (Ok tt, out')) ∧
  AnalyticsConsumer.handle_notification interrupted_handler []
    = (Raise KeyboardInterrupt, []) ∧
  AnalyticsConsumer.handle_notification unprintable_handler []
    = (Raise (OtherException "TypeError" "__str__ returned non-string (type int)"), []).
Proof.
  split; [|split; reflexivity].
  intros h out (Hc & Hd & Hts & Ht & Ha & Hr).
  unfold AnalyticsConsumer.handle_notification, try_except.
  rewrite bind_eval.
  assert (Hcaught : ∀ e0 : exn,
            isinstance_Exception e0 = true ∧ is_ok (format_exn e0) = true ->
            ∃ out',
              (if isinstance_Exception e0
               then (text ← eval (format_exn e0);
                     print [Lit "❌ Analytics tracking failed: "; text]) out
               else (Raise e0, out)) = (Ok tt, out')).
  { intros e0 [-> Hstr]. rewrite bind_format_exn.
    destruct (format_exn e0); [|discriminate]. unfold print. eauto. }
  destruct (channel h) as [chan|e] eqn:Ec; [|by apply Hcaught, Hc].
  destruct (py_eq chan (PStr "data_change")).
  - unfold AnalyticsConsumer.track_database_change.
    rewrite bind_eval.
    destruct (get_table h) as [t|e] eqn:Et; [|by apply Hcaught, Ht].
    rewrite bind_eval.
    destruct (get_action h) as [a|e] eqn:Ea; [|by apply Hcaught, Ha].
    rewrite bind_eval.
    destruct (get_record_id h) as [r|e] eqn:Er; [|by apply Hcaught, Hr].
    rewrite bind_eval.
    destruct (timestamp h) as [ts|e] eqn:Ets; [|by apply Hcaught, Hts].
    unfold print. eauto.
  - rewrite bind_eval.
    destruct (py_eq chan (PStr "user_events")).
    + unfold AnalyticsConsumer.track_user_event. rewrite bind_eval.
      destruct (data h) as [d|e] eqn:Ed; [|by apply Hcaught, Hd].
      unfold print. eauto.
    + unfold mret, M_ret. eauto.
Qed.

(** The amended C6 at a handler whose accessors fail with a [KeyError]. *)
Lemma analytics_handle_notification_catches_Exception_witness :
  raises_only_printable_Exception broken_handler ∧
  ∃ out', AnalyticsConsumer.handle_notification broken_handler [] = (Ok tt, out').
Proof.
  assert (H : raises_only_printable_Exception broken_handler).
  { repeat apply conj; intros e He; simpl in He; try discriminate;
      injection He as <-; split; reflexivity. }
  split; [exact H|].
  exact (proj1 analytics_handle_notification_catches_Exception broken_handler [] H).
Defined.

(** C7: the class [create_table_monitor(table_name)] builds has
    [consumer_id = table_name + '_monitor'] and [channels = ['data_change']];
    its [handle_notification] prints the monitor line when the handler's
    [get_table()] equals [table_name], and does nothing when [get_table()]
    is anything else. *)
Theorem create_table_monitor_spec (str_title : string -> string) (table_name : string) :
  let monitor := create_table_monitor str_title table_name in
  consumer_id monitor = table_name +:+ "_monitor" ∧
  channels monitor = ["data_change"] ∧
  (∀ (h : Handler) (out : stdout) (action record_id : pyval),
     get_table h = Ok (PStr table_name) ->
     get_action h = Ok action ->
     get_record_id h = Ok record_id ->
     handle_notification monitor h out =
       (Ok tt,
        out ++ [[Lit "🔍 "; Lit (str_title table_name); Lit " "; Fmt action;
                 Lit ": ID "; Fmt record_id]])) ∧
  (∀ (h : Handler) (out : stdout) (table : pyval),
     get_table h = Ok table ->
     table ≠ PStr table_name ->
     handle_notification monitor h out = (Ok tt, out)).
Proof.
  simpl. split; [done|]. split; [done|]. split.
  - intros h out action record_id Ht Ha Hr.
    rewrite bind_eval, Ht.
    assert (E : py_eq (PStr table_name) (PStr table_name) = true) by by apply py_eq_PStr.
    rewrite E, bind_eval, Ha, bind_eval, Hr. done.
  - intros h out table Ht Hne.
    rewrite bind_eval, Ht, (py_eq_PStr_false _ _ Hne). done.
Qed.

(** C7 on the scenario of the spec: the monitor of [auth_user] prints for an
    INSERT on [auth_user]. *)
Lemma create_table_monitor_spec_witness :
  handle_notification (create_table_monitor ascii_title "auth_user") alice_insert [] =
    (Ok tt, [[Lit "🔍 "; Lit "Auth_User"; Lit " "; Fmt (PStr "INSERT");
              Lit ": ID "; Fmt (PInt 7)]]).
Proof.
  exact (proj1 (proj2 (proj2 (create_table_monitor_spec ascii_title "auth_user")))
           alice_insert [] (PStr "INSERT") (PInt 7) eq_refl eq_refl eq_refl).
Defined.

(** C8: [UserChangeConsumer.handle_notification] raises on an UPDATE of
    [auth_user] whose old or new data is absent: it calls [.get] on [None]
    and fails with [AttributeError], having printed nothing.  A payload that
    lacks [old_data] or [new_data] gives such a handler, and there is one.
    On a handler whose [get_table()] is not ['auth_user'] it returns at once,
    without any effect. *)
Theorem user_change_handle_notification_raises_on_partial_update :
  (∀ (h : Handler) (out : stdout) (old_data new_data : pyval),
     get_table h = Ok (PStr "auth_user") ->
     get_action h = Ok (PStr "UPDATE") ->
     get_old_data h = Ok old_data ->
     get_new_data h = Ok new_data ->
     old_data = PNone ∨ new_data = PNone ->
     ∃ msg, UserChangeConsumer.handle_notification h out = (Raise (AttributeError msg), out)) ∧
  (∀ (chan : string) (payload : list (string * pyval)) (replay : bool) (ts : pyval)
     (out : stdout),
     dict_lookup payload "table" = Some (PStr "auth_user") ->
     dict_lookup payload "action" = Some (PStr "UPDATE") ->
     dict_lookup payload "old_data" = None ∨ dict_lookup payload "new_data" = None ->
     ∃ msg, UserChangeConsumer.handle_notification
              (NotificationHandler chan payload replay ts) out
            = (Raise (AttributeError msg), out)) ∧
  (∃ (h : Handler) (msg : string),
     UserChangeConsumer.handle_notification h [] = (Raise (AttributeError msg), [])) ∧
  (∀ (h : Handler) (out : stdout) (table : pyval),
     get_table h = Ok table ->
     table ≠ PStr "auth_user" ->
     UserChangeConsumer.handle_notification h out = (Ok tt, out)).
Proof.
  assert (Hmain : ∀ (h : Handler) (out : stdout) (old_data new_data : pyval),
     get_table h = Ok (PStr "auth_user") ->
     get_action h = Ok (PStr "UPDATE") ->
     get_old_data h = Ok old_data ->
     get_new_data h = Ok new_data ->
     old_data = PNone ∨ new_data = PNone ->
     ∃ msg, UserChangeConsumer.handle_notification h out = (Raise (AttributeError msg), out)).
  { intros h out od nd Ht Ha Ho Hn Habsent.
    unfold UserChangeConsumer.handle_notification.
    rewrite bind_eval, Ht. unfold py_ne at 1.
    rewrite (proj2 (py_eq_PStr _ _) eq_refl). cbn [negb].
    rewrite bind_eval, Ha.
    assert (Hor : ∃ u, py_or (S := stdout) (eval (get_new_data h)) (eval (get_old_data h)) out
                       = (Ok u, out)).
    { unfold py_or. rewrite bind_eval, Hn.
      destruct (truthy nd); [by eexists|]. unfold eval. rewrite Ho. by eexists. }
    destruct Hor as [u Hor].
    rewrite (bind_Ok _ _ _ _ _ Hor).
    rewrite (py_eq_PStr_false (PStr "UPDATE") "INSERT") by discriminate.
    rewrite (proj2 (py_eq_PStr _ _) eq_refl).
    rewrite bind_eval, Ho, bind_eval, Hn, bind_eval.
    destruct Habsent as [-> | ->].
    - simpl. by eexists.
    - destruct (method_get od "email") as [x|e] eqn:Eo.
      + rewrite bind_eval. simpl. by eexists.
      + destruct od; simpl in Eo; try discriminate; injection Eo as <-; by eexists. }
  split; [exact Hmain|]. split; [|split].
  - intros chan payload replay ts out Ht Ha Habsent.
    eapply Hmain; simpl.
    + by rewrite Ht.
    + by rewrite Ha.
    + reflexivity.
    + reflexivity.
    + destruct Habsent as [-> | ->]; [by left | by right].
  - exists update_without_old_data. eexists. vm_compute. reflexivity.
  - intros h out table Ht Hne.
    unfold UserChangeConsumer.handle_notification.
    rewrite bind_eval, Ht. unfold py_ne.
    rewrite (py_eq_PStr_false _ _ Hne). done.
Qed.

(** C8 at the UPDATE whose payload carries no [old_data]. *)
Lemma user_change_handle_notification_raises_witness :
  ∃ msg, UserChangeConsumer.handle_notification update_without_old_data []
         = (Raise (AttributeError msg), []).
Proof.
  exact (proj1 (proj2 user_change_handle_notification_raises_on_partial_update)
           "data_change"
           [("table", PStr "auth_user"); ("action", PStr "UPDATE"); ("record_id", PInt 7);
            ("new_data", PDict [("username", PStr "alice"); ("email", PStr "a@x.com")])]
           false PNone [] eq_refl eq_refl (or_introl eq_refl)).
Defined.

End ConsumerProperties.

(* ===================================================================== *)
(** * Part VI. Properties of the test-matrix harness *)
(* ===================================================================== *)

Section HarnessProperties.

Import TestMatrix.

Variable World : Type.
Variable os_shell : string -> option string -> World -> os_result (Z * string * string) * World.
Variable os_decode : string -> os_result string.
Variable os_mkstemp : string -> World -> os_result string * World.
Variable os_write : string -> string -> World -> os_result unit * World.
Variable os_unlink : string -> World -> os_result unit * World.

Lemma bind_print_St {B : Type} (l : line) (f : unit -> M (St World) B) (s : St World) :
  (print World l ≫= f) s = f tt {| world := world s; printed := printed s ++ [l] |}.
Proof. reflexivity. Qed.

Lemma bind_os_call {A B : Type} (call : World -> os_result A * World)
    (f : A -> M (St World) B) (s : St World) :
  (os_call World call ≫= f) s =
    match call (world s) with
    | (Done a, w') => f a {| world := w'; printed := printed s |}
    | (Refused failure, w') =>
        (Raise (exn_of failure), {| world := w'; printed := printed s |})
    end.
Proof.
  unfold mbind, M_bind, os_call. by destruct (call (world s)) as [[a|failure] w'].
Qed.

Lemma exn_of_not_CalledProcessError (failure : os_failure) :
  isinstance_CalledProcessError (exn_of failure) = false.
Proof. by destruct failure. Qed.

(** What [run_cmd] computes, from what the system did. *)
Lemma run_cmd_outcome (cmd : string) (cwd : option string)
    (capture_output : bool) (s : St World) :
  run_cmd World os_shell os_decode cmd cwd capture_output s =
    if embedded_NUL cmd cwd
    then (Raise (OtherException "ValueError" "embedded null byte"), s)
    else
      match os_shell cmd cwd (world s) with
      | (Refused failure, w') =>
          (Raise (exn_of failure), {| world := w'; printed := printed s |})
      | (Done (rc, out, err), w') =>
          let s' := {| world := w'; printed := printed s |} in
          if capture_output then
            match os_decode out with
            | Refused failure => (Raise (exn_of failure), s')
            | Done o =>
                match os_decode err with
                | Refused failure => (Raise (exn_of failure), s')
                | Done e => (Ok (Z.eqb rc 0, PStr o, PStr e), s')
                end
            end
          else
            (Ok (if Z.eqb rc 0 then (true, PNone, PNone)
                 else (false, PStr EmptyString, PStr EmptyString)), s')
      end.
Proof.
  unfold run_cmd, try_except, subprocess_run.
  destruct (embedded_NUL cmd cwd); [reflexivity|].
  unfold mbind at 1, M_bind at 1. rewrite bind_os_call.
  destruct (os_shell cmd cwd (world s)) as [[[[rc out] err]|failure] w'].
  2:{ by rewrite exn_of_not_CalledProcessError. }
  cbn [fst snd]. unfold decode_output.
  destruct capture_output.
  - unfold mbind at 1, M_bind at 1. rewrite bind_os_call. cbn [world printed].
    destruct (os_decode out) as [o|failure];
      [|by rewrite exn_of_not_CalledProcessError].
    rewrite bind_os_call. cbn [world printed].
    destruct (os_decode err) as [e|failure];
      [|by rewrite exn_of_not_CalledProcessError].
    by destruct (Z.eqb rc 0).
  - by destruct (Z.eqb rc 0).
Qed.


(** C10, amended: [run_cmd] never lets [CalledProcessError] escape.  When
    the command runs and exits, and what it wrote decodes if it is captured,
    [run_cmd] returns a triple: [True] with the stdout and stderr of the
    completed process ([None] when output is not captured) at status zero,
    and [False] with the output captured at the failure, or with empty
    strings when output is not captured, at any other status.  Every other
    exception of [subprocess.run] escapes: the [ValueError] for a NUL in the
    command or working directory, what the system raised when the command
    could not be started or waited for, and the error of the decoding of
    captured output, whatever the exit status. *)
Theorem run_cmd_returns_triple (cmd : string) (cwd : option string)
    (capture_output : bool) (s : St World) :
  (∀ e s', run_cmd World os_shell os_decode cmd cwd capture_output s = (Raise e, s') ->
           isinstance_CalledProcessError e = false) ∧
  (∀ rc out err w',
     embedded_NUL cmd cwd = false ->
     os_shell cmd cwd (world s) = (Done (rc, out, err), w') ->
     let s' := {| world := w'; printed := printed s |} in
     (capture_output = false ->
      run_cmd World os_shell os_decode cmd cwd capture_output s =
        (Ok (if Z.eqb rc 0 then (true, PNone, PNone)
             else (false, PStr EmptyString, PStr EmptyString)), s')) ∧
     (∀ o e, capture_output = true -> os_decode out = Done o -> os_decode err = Done e ->
        run_cmd World os_shell os_decode cmd cwd capture_output s =
          (Ok (Z.eqb rc 0, PStr o, PStr e), s')) ∧
     (∀ failure, capture_output = true ->
        os_decode out = Refused failure ∨
        ((∃ o, os_decode out = Done o) ∧ os_decode err = Refused failure) ->
        run_cmd World os_shell os_decode cmd cwd capture_output s =
          (Raise (exn_of failure), s'))) ∧
  (embedded_NUL cmd cwd = true ->
   run_cmd World os_shell os_decode cmd cwd capture_output s =
     (Raise (OtherException "ValueError" "embedded null byte"), s)) ∧
  (∀ failure w',
     embedded_NUL cmd cwd = false ->
     os_shell cmd cwd (world s) = (Refused failure, w') ->
     run_cmd World os_shell os_decode cmd cwd capture_output s =
       (Raise (exn_of failure), {| world := w'; printed := printed s |})).
Proof.
  rewrite run_cmd_outcome. split; [|split; [|split]].
  - intros e s'. destruct (embedded_NUL cmd cwd); [by intros [= <- _]|].
    destruct (os_shell cmd cwd (world s)) as [[[[rc out] err]|failure] w'].
    2:{ intros [= <- _]. apply exn_of_not_CalledProcessError. }
    cbv zeta. destruct capture_output; [|discriminate].
    destruct (os_decode out) as [o|failure];
      [|intros [= <- _]; apply exn_of_not_CalledProcessError].
    destruct (os_decode err) as [e'|failure]; [discriminate|].
    intros [= <- _]. apply exn_of_not_CalledProcessError.
  - intros rc out err w' -> -> s'. split; [by intros ->|]. split.
    + intros o e -> -> ->. done.
    + intros failure -> [-> | [[o ->] ->]]; done.
  - by intros ->.
  - by intros failure w' -> ->.
Qed.


Lemma bind_unfold {S A B : Type} (m : M S A) (f : A -> M S B) (s : S) :
  (m ≫= f) s = match m s with (Ok a, s') => f a s' | (Raise e, s') => (Raise e, s') end.
Proof. reflexivity. Qed.





(** Setting a fresh key appends the item. *)
Lemma dict_set_fresh {K V : Type} `{EqDecision K} (items : list (K * V)) (key : K)
    (value : V) :
  key ∉ items.*1 -> dict_set items key value = items ++ [(key, value)].
Proof.
  induction items as [|[k v] items IH]; intros Hfresh; simpl; [done|].
  rewrite fmap_cons, not_elem_of_cons in Hfresh. destruct Hfresh as [Hne Hfresh].
  destruct (decide (k = key)) as [->|_]; [done|].
  by rewrite IH.
Qed.

(** [sum] over booleans counts the [True]s. *)
Lemma sum_bools_from (bs : list bool) (acc : Z) :
  fold_left (fun a (b : bool) => (a + (if b then 1 else 0))%Z) bs acc
  = (acc + sum_bools bs)%Z.
Proof.
  unfold sum_bools. revert acc. induction bs as [|b bs IH]; intros acc; cbn [fold_left].
  - lia.
  - rewrite IH, (IH (0 + _)%Z). lia.
Qed.

Lemma sum_bools_cons (b : bool) (bs : list bool) :
  sum_bools (b :: bs) = ((if b then 1 else 0) + sum_bools bs)%Z.
Proof. unfold sum_bools at 1. simpl. by rewrite sum_bools_from. Qed.

Lemma sum_bools_bound (bs : list bool) :
  (0 <= sum_bools bs <= Z.of_nat (length bs))%Z.
Proof.
  induction bs as [|b bs IH]; [done|].
  rewrite sum_bools_cons. cbn [length]. destruct b; lia.
Qed.

Lemma sum_bools_all (bs : list bool) :
  Z.eqb (sum_bools bs) (Z.of_nat (length bs)) = forallb id bs.
Proof.
  induction bs as [|b bs IH]; [done|].
  rewrite sum_bools_cons. cbn [length forallb id].
  pose proof (sum_bools_bound bs) as Hb.
  destruct b; simpl.
  - rewrite <- IH. destruct (Z.eqb_spec (sum_bools bs) (Z.of_nat (length bs)));
      [apply Z.eqb_eq | apply Z.eqb_neq]; lia.
  - apply Z.eqb_neq. lia.
Qed.

Lemma MATRIX_NoDup : NoDup MATRIX.
Proof. apply (bool_decide_unpack (NoDup MATRIX)). vm_compute. exact I. Qed.

Lemma sum_bools_filter (bs : list bool) :
  sum_bools bs = Z.of_nat (length (List.filter id bs)).
Proof.
  induction bs as [|b bs IH]; [done|].
  rewrite sum_bools_cons, IH. destruct b; cbn [List.filter id length]; lia.
Qed.

Lemma length_filter_negb (bs : list bool) :
  (Z.of_nat (length bs) - Z.of_nat (length (List.filter id bs)))%Z
  = Z.of_nat (length (List.filter negb bs)).
Proof.
  induction bs as [|b bs IH]; [done|].
  destruct b; cbn [List.filter id negb length]; lia.
Qed.

Lemma for_in_print {A : Type} (xs : list A) (g : A -> line) (s : St World) :
  for_in World xs (fun x => print World (g x)) s
  = (Ok tt, {| world := world s; printed := printed s ++ map g xs |}).
Proof.
  revert s. induction xs as [|x xs IH]; intros s.
  - simpl. rewrite app_nil_r. by destruct s.
  - cbn [for_in map]. rewrite bind_print_St, IH. cbn [world printed].
    by rewrite <- app_assoc.
Qed.

(** The loop calls [test_combination] on the pairs of the matrix it is
    given, in order and whatever the calls return, until one raises. *)
Lemma main_loop_calls (matrix : list (string * string))
    (results : list (string * string * bool)) (s : St World) :
  NoDup (results.*1 ++ matrix) ->
  ∃ (values : list bool) (raised : option exn) (s2 s' : St World),
    called_in_order World os_shell os_decode os_mkstemp os_write os_unlink
      matrix s values raised s2 ∧
    world s' = world s2 ∧
    match raised with
    | None =>
        length values = length matrix ∧
        main_loop World os_shell os_decode os_mkstemp os_write os_unlink matrix results s
          = (Ok (results ++ zip matrix values), s')
    | Some e =>
        length values < length matrix ∧
        main_loop World os_shell os_decode os_mkstemp os_write os_unlink matrix results s
          = (Raise e, s')
    end.
Proof.
  revert results s. induction matrix as [|[py dj] matrix IH]; intros results s Hnd.
  - exists [], None, s, s. split; [constructor|]. split; [done|]. split; [done|].
    simpl. by rewrite app_nil_r.
  - cbn [main_loop]. rewrite bind_unfold.
    destruct (test_combination World os_shell os_decode os_mkstemp os_write os_unlink
                py dj s) as [[b|e] s1] eqn:E1.
    2:{ exists [], (Some e), s1, s1. split; [by constructor|]. split; [done|].
        split; [simpl; lia | done]. }
    assert (Hfresh : (py, dj) ∉ results.*1).
    { apply NoDup_app in Hnd as (_ & Hdisj & _). intros Hin.
      apply (Hdisj _ Hin). left. }
    rewrite (dict_set_fresh _ _ _ Hfresh).
    set (warning := [Lit (NL +:+ "‚ö†Ô∏è  " +:+ py +:+ " + Django " +:+ dj
                          +:+ " failed, continuing with remaining combinations...")]).
    set (s1' := if negb b
                then {| world := world s1; printed := printed s1 ++ [warning] |}
                else s1).
    assert (E2 : (if negb b then print World warning else mret tt) s1 = (Ok tt, s1'))
      by (unfold s1'; by destruct b).
    assert (Hw : world s1' = world s1) by (unfold s1'; by destruct b).
    rewrite (bind_Ok _ _ _ _ _ E2).
    destruct (IH (results ++ [(py, dj, b)]) s1') as (values & raised & s2 & s' & Hc & Hws & Hr).
    { rewrite fmap_app. simpl. rewrite <- app_assoc. simpl.
      apply NoDup_app in Hnd as (Hr & Hdisj & Hm).
      apply NoDup_app. split; [done|]. split; [|done].
      intros x Hx. apply Hdisj. done. }
    exists (b :: values), raised, s2, s'.
    split; [by econstructor|]. split; [done|].
    destruct raised as [e|].
    + destruct Hr as [Hlen ->]. split; [simpl; lia | done].
    + destruct Hr as [Hlen ->]. split; [simpl; lia|].
      simpl. by rewrite <- app_assoc.
Qed.

(** What [main] does, from the outcome of the PostgreSQL check and of the
    loop. *)
Lemma main_outcome (s : St World) :
  main World os_shell os_decode os_mkstemp os_write os_unlink s =
    match run_cmd World os_shell os_decode
            "docker exec pgwatch-postgres psql -U postgres -d test_pgwatch -c 'SELECT 1;'"
            None true
            {| world := world s;
               printed := printed s ++ [[Lit "Checking PostgreSQL connection..."]] |} with
    | (Raise e, s1) => (Raise e, s1)
    | (Ok r, s1) =>
        if negb r.1.1
        then (Ok false,
              {| world := world s1;
                 printed :=
                   printed s1 ++
                   [[Lit "‚ùå PostgreSQL not running. Please start it first:"];
                    [Lit "docker run --name pgwatch-postgres -d -e POSTGRES_PASSWORD=postgres -e POSTGRES_USER=postgres -e POSTGRES_DB=test_pgwatch -p 55235:5432 postgres:15"]] |})
        else
          match main_loop World os_shell os_decode os_mkstemp os_write os_unlink
                  MATRIX [] s1 with
          | (Raise e, s2) => (Raise e, s2)
          | (Ok results, s2) =>
              (Ok (forallb id (map snd results)),
               {| world := world s2;
                  printed :=
                    printed s2 ++
                    [[Lit (NL +:+ str_repeat "=" 60)]; [Lit "SUMMARY"];
                     [Lit (str_repeat "=" 60)]] ++
                    map (fun item : string * string * bool =>
                           [Lit ("Python " +:+ item.1.1 +:+ " + Django " +:+ item.1.2 +:+
                                 ": " +:+ (if item.2 then "‚úÖ PASS" else "‚ùå FAIL"))])
                        results ++
                    [[Lit (NL +:+ "Total: ");
                      Fmt (PInt (Z.of_nat (length (List.filter id (map snd results)))));
                      Lit "/"; Fmt (PInt (Z.of_nat (length results)));
                      Lit " combinations tested"];
                     (if forallb id (map snd results)
                      then [Lit "üéâ All tested combinations passed!"]
                      else [Lit "üí• ";
                            Fmt (PInt (Z.of_nat
                                   (length (List.filter negb (map snd results)))));
                            Lit " combinations failed"])] |})
          end
    end.
Proof.
  unfold main. rewrite bind_print_St, bind_unfold.
  destruct (run_cmd _ _ _ _ _ _ _) as [[r|e] s1]; [|done].
  destruct (negb r.1.1).
  { rewrite !bind_print_St. cbn [world printed]. by rewrite <- !app_assoc. }
  rewrite bind_unfold.
  destruct (main_loop _ _ _ _ _ _ _ _ _) as [[results|e] s2]; [|done].
  rewrite !bind_print_St. cbv zeta.
  rewrite bind_unfold, for_in_print. rewrite bind_print_St. cbn [world printed].
  replace (sum_bools (map snd results) =? Z.of_nat (length results))%Z
    with (forallb id (map snd results))
    by (rewrite <- sum_bools_all, length_map; reflexivity).
  replace (Z.of_nat (length results) - sum_bools (map snd results))%Z
    with (Z.of_nat (length (List.filter negb (map snd results))))
    by (rewrite <- length_filter_negb, sum_bools_filter, length_map; reflexivity).
  rewrite sum_bools_filter.
  destruct (forallb id (map snd results)); rewrite bind_print_St; cbn [world printed];
    by rewrite <- !app_assoc.
Qed.


(** After a successful PostgreSQL check: the calls [main] makes, what it
    returns or raises, and the summary it prints. *)
Lemma main_after_check (s : St World) (out err o e : string) (w1 : World) :
  os_shell "docker exec pgwatch-postgres psql -U postgres -d test_pgwatch -c 'SELECT 1;'"
    None (world s) = (Done (0%Z, out, err), w1) ->
  os_decode out = Done o ->
  os_decode err = Done e ->
  ∃ (values : list bool) (raised : option exn) (s2 s' : St World),
    called_in_order World os_shell os_decode os_mkstemp os_write os_unlink MATRIX
      {| world := w1;
         printed := printed s ++ [[Lit "Checking PostgreSQL connection..."]] |}
      values raised s2 ∧
    world s' = world s2 ∧
    match raised with
    | None =>
        length values = 10 ∧
        main World os_shell os_decode os_mkstemp os_write os_unlink s
          = (Ok (forallb id values), s') ∧
        ∃ before,
          printed s' =
          before ++
          [[Lit (NL +:+ str_repeat "=" 60)]; [Lit "SUMMARY"]; [Lit (str_repeat "=" 60)]] ++
          map (fun item : string * string * bool =>
                 [Lit ("Python " +:+ item.1.1 +:+ " + Django " +:+ item.1.2 +:+ ": " +:+
                       (if item.2 then "‚úÖ PASS" else "‚ùå FAIL"))])
              (zip MATRIX values) ++
          [[Lit (NL +:+ "Total: ");
            Fmt (PInt (Z.of_nat (length (List.filter id values))));
            Lit "/"; Fmt (PInt 10); Lit " combinations tested"];
           (if forallb id values
            then [Lit "üéâ All tested combinations passed!"]
            else [Lit "üí• ";
                  Fmt (PInt (Z.of_nat (length (List.filter negb values))));
                  Lit " combinations failed"])]
    | Some ex =>
        length values < 10 ∧
        main World os_shell os_decode os_mkstemp os_write os_unlink s = (Raise ex, s')
    end.
Proof.
  intros Hcheck Hout Herr.
  rewrite main_outcome, run_cmd_outcome. cbn [world printed].
  change (embedded_NUL _ None) with false. cbv iota.
  rewrite Hcheck, Hout, Herr. cbn [Z.eqb fst negb].
  destruct (main_loop_calls MATRIX []
              {| world := w1;
         printed := printed s ++ [[Lit "Checking PostgreSQL connection..."]] |})
    as (values & raised & s2 & s' & Hcalls & Hw & Hr).
  { simpl. apply MATRIX_NoDup. }
  exists values, raised, s2.
  destruct raised as [ex|].
  - destruct Hr as [Hlen ->]. exists s'. done.
  - destruct Hr as [Hlen ->]. rewrite app_nil_l.
    assert (Hlz : length (zip MATRIX values) = 10).
    { rewrite length_zip, Hlen. reflexivity. }
    assert (Hsnd : map snd (zip MATRIX values) = values).
    { apply snd_zip. rewrite Hlen. simpl. lia. }
    rewrite Hsnd, Hlz. eexists. split; [exact Hcalls|].
    split; [|split; [exact Hlen|split; [reflexivity|]]].
    + exact Hw.
    + exists (printed s'). reflexivity.
Qed.

(** C9, amended: once the PostgreSQL check has succeeded (the command ran,
    exited with status zero, and what it wrote decodes), [main] calls
    [test_combination] on the pairs of [MATRIX], in order, each call on the
    system as the call before left it and whatever the calls before
    returned.  As long as the calls return, it calls all 10 and returns
    [True] exactly when every call returned [True]; when a call raises, no
    call follows and the exception leaves [main]. *)
Theorem main_runs_every_combination (s : St World) (out err o e : string) (w1 : World) :
  os_shell "docker exec pgwatch-postgres psql -U postgres -d test_pgwatch -c 'SELECT 1;'"
    None (world s) = (Done (0%Z, out, err), w1) ->
  os_decode out = Done o ->
  os_decode err = Done e ->
  ∃ (values : list bool) (raised : option exn) (s2 s' : St World),
    called_in_order World os_shell os_decode os_mkstemp os_write os_unlink MATRIX
      {| world := w1;
         printed := printed s ++ [[Lit "Checking PostgreSQL connection..."]] |}
      values raised s2 ∧
    world s' = world s2 ∧
    match raised with
    | None =>
        length values = 10 ∧
        main World os_shell os_decode os_mkstemp os_write os_unlink s
          = (Ok (forallb id values), s')
    | Some ex =>
        length values < 10 ∧
        main World os_shell os_decode os_mkstemp os_write os_unlink s = (Raise ex, s')
    end.
Proof.
  intros Hcheck Hout Herr.
  destruct (main_after_check s out err o e w1 Hcheck Hout Herr)
    as (values & raised & s2 & s' & Hcalls & Hw & Hr).
  exists values, raised, s2, s'. split; [exact Hcalls|]. split; [exact Hw|].
  destruct raised as [ex|]; [exact Hr|]. by destruct Hr as (? & ? & _).
Qed.


(** [main] when the PostgreSQL check exits with a status that is not zero. *)
Lemma main_check_failed (s : St World) (rc : Z) (out err o e : string) (w1 : World) :
  os_shell "docker exec pgwatch-postgres psql -U postgres -d test_pgwatch -c 'SELECT 1;'"
    None (world s) = (Done (rc, out, err), w1) ->
  rc ≠ 0%Z ->
  os_decode out = Done o ->
  os_decode err = Done e ->
  main World os_shell os_decode os_mkstemp os_write os_unlink s =
    (Ok false,
     {| world := w1;
        printed :=
          printed s ++
          [[Lit "Checking PostgreSQL connection..."];
           [Lit "‚ùå PostgreSQL not running. Please start it first:"];
           [Lit "docker run --name pgwatch-postgres -d -e POSTGRES_PASSWORD=postgres -e POSTGRES_USER=postgres -e POSTGRES_DB=test_pgwatch -p 55235:5432 postgres:15"]] |}).
Proof.
  intros Hcheck Hrc Hout Herr.
  rewrite main_outcome, run_cmd_outcome. cbn [world printed].
  change (embedded_NUL _ None) with false. cbv iota.
  rewrite Hcheck, Hout, Herr. apply Z.eqb_neq in Hrc. rewrite Hrc.
  cbn [fst negb world printed]. by rewrite <- app_assoc.
Qed.

(** X12: when the PostgreSQL check does not succeed, [main] tests no
    combination and leaves the system as the check left it.  When the check
    command exits with a status that is not zero and what it wrote decodes,
    [main] prints the help and returns [False]; when the command cannot be
    run, or what it wrote does not decode (whatever its exit status), the
    exception leaves [main], with nothing printed but the first line. *)
Theorem main_stops_without_postgres (s : St World) :
  (∀ rc out err o e w1,
     os_shell "docker exec pgwatch-postgres psql -U postgres -d test_pgwatch -c 'SELECT 1;'"
       None (world s) = (Done (rc, out, err), w1) ->
     rc ≠ 0%Z ->
     os_decode out = Done o ->
     os_decode err = Done e ->
     main World os_shell os_decode os_mkstemp os_write os_unlink s =
       (Ok false,
        {| world := w1;
           printed :=
             printed s ++
             [[Lit "Checking PostgreSQL connection..."];
              [Lit "‚ùå PostgreSQL not running. Please start it first:"];
              [Lit "docker run --name pgwatch-postgres -d -e POSTGRES_PASSWORD=postgres -e POSTGRES_USER=postgres -e POSTGRES_DB=test_pgwatch -p 55235:5432 postgres:15"]] |})) ∧
  (∀ failure w1,
     os_shell "docker exec pgwatch-postgres psql -U postgres -d test_pgwatch -c 'SELECT 1;'"
       None (world s) = (Refused failure, w1) ->
     main World os_shell os_decode os_mkstemp os_write os_unlink s =
       (Raise (exn_of failure),
        {| world := w1;
         printed := printed s ++ [[Lit "Checking PostgreSQL connection..."]] |})) ∧
  (∀ rc out err failure w1,
     os_shell "docker exec pgwatch-postgres psql -U postgres -d test_pgwatch -c 'SELECT 1;'"
       None (world s) = (Done (rc, out, err), w1) ->
     os_decode out = Refused failure ∨
     ((∃ o, os_decode out = Done o) ∧ os_decode err = Refused failure) ->
     main World os_shell os_decode os_mkstemp os_write os_unlink s =
       (Raise (exn_of failure),
        {| world := w1;
         printed := printed s ++ [[Lit "Checking PostgreSQL connection..."]] |})).
Proof.
  rewrite main_outcome, run_cmd_outcome. cbn [world printed].
  change (embedded_NUL _ None) with false. cbv iota.
  split; [|split].
  - intros rc out err o e w1 -> Hrc -> ->. apply Z.eqb_neq in Hrc. rewrite Hrc.
    cbn [fst negb world printed]. by rewrite <- app_assoc.
  - by intros failure w1 ->.
  - intros rc out err failure w1 -> [-> | [[o ->] ->]]; done.
Qed.

(** X13: when [main] returns after a successful PostgreSQL check, what it
    printed ends with the summary of the calls it made: the header, one
    line for each combination of [MATRIX] in order, which says PASS exactly
    when the call for this combination returned [True], the total with the
    number of calls that returned [True] out of 10, and the verdict, which
    is the number of calls that returned [False] unless there is none. *)
Theorem main_summary_reports_the_calls (s : St World) (out err o e : string) (w1 : World) :
  os_shell "docker exec pgwatch-postgres psql -U postgres -d test_pgwatch -c 'SELECT 1;'"
    None (world s) = (Done (0%Z, out, err), w1) ->
  os_decode out = Done o ->
  os_decode err = Done e ->
  ∃ (values : list bool) (raised : option exn) (s2 s' : St World),
    called_in_order World os_shell os_decode os_mkstemp os_write os_unlink MATRIX
      {| world := w1;
         printed := printed s ++ [[Lit "Checking PostgreSQL connection..."]] |}
      values raised s2 ∧
    main World os_shell os_decode os_mkstemp os_write os_unlink s
      = (match raised with
         | None => Ok (forallb id values)
         | Some ex => Raise ex
         end, s') ∧
    (raised = None ->
     ∃ before,
       printed s' =
         before ++
         [[Lit (NL +:+ str_repeat "=" 60)]; [Lit "SUMMARY"];
           [Lit (str_repeat "=" 60)]] ++
          map (fun item : string * string * bool =>
                 [Lit ("Python " +:+ item.1.1 +:+ " + Django " +:+ item.1.2 +:+ ": " +:+
                       (if item.2 then "‚úÖ PASS" else "‚ùå FAIL"))])
              (zip MATRIX values) ++
          [[Lit (NL +:+ "Total: ");
            Fmt (PInt (Z.of_nat (length (List.filter id values))));
            Lit "/"; Fmt (PInt 10); Lit " combinations tested"];
           (if forallb id values
            then [Lit "üéâ All tested combinations passed!"]
            else [Lit "üí• ";
                  Fmt (PInt (Z.of_nat (length (List.filter negb values))));
                  Lit " combinations failed"])]).
Proof.
  intros Hcheck Hout Herr.
  destruct (main_after_check s out err o e w1 Hcheck Hout Herr)
    as (values & raised & s2 & s' & Hcalls & Hw & Hr).
  exists values, raised, s2, s'. split; [exact Hcalls|].
  destruct raised as [ex|].
  - destruct Hr as [_ ->]. done.
  - destruct Hr as (_ & -> & Hsum). done.
Qed.

(** X14: run as a script, the harness ends with [sys.exit] exactly when
    [main] returns, and the exit status tells what [main] returned.  When
    the PostgreSQL check exits with a status that is not zero, the status
    is 1.  When the check succeeds and every call of [test_combination]
    returns, the status is 0 if all 10 calls returned [True] and 1
    otherwise.  When a call raises, or when the check command cannot be
    run, [sys.exit] is not reached: the exception leaves the script. *)
Theorem script_main_exit_status (s : St World) :
  (∀ rc out err o e w1,
     os_shell "docker exec pgwatch-postgres psql -U postgres -d test_pgwatch -c 'SELECT 1;'"
       None (world s) = (Done (rc, out, err), w1) ->
     rc ≠ 0%Z ->
     os_decode out = Done o ->
     os_decode err = Done e ->
     ∃ s',
       script_main World os_shell os_decode os_mkstemp os_write os_unlink s
         = (Raise (SystemExit 1), s') ∧
       world s' = w1) ∧
  (∀ out err o e w1,
     os_shell "docker exec pgwatch-postgres psql -U postgres -d test_pgwatch -c 'SELECT 1;'"
       None (world s) = (Done (0%Z, out, err), w1) ->
     os_decode out = Done o ->
     os_decode err = Done e ->
     ∃ (values : list bool) (raised : option exn) (s2 s' : St World),
       called_in_order World os_shell os_decode os_mkstemp os_write os_unlink MATRIX
         {| world := w1;
         printed := printed s ++ [[Lit "Checking PostgreSQL connection..."]] |}
         values raised s2 ∧
       world s' = world s2 ∧
       script_main World os_shell os_decode os_mkstemp os_write os_unlink s
         = (Raise (match raised with
                   | None => SystemExit (if forallb id values then 0 else 1)
                   | Some ex => ex
                   end), s') ∧
       (raised = None -> length values = 10)) ∧
  (∀ failure w1,
     os_shell "docker exec pgwatch-postgres psql -U postgres -d test_pgwatch -c 'SELECT 1;'"
       None (world s) = (Refused failure, w1) ->
     ∃ s',
       script_main World os_shell os_decode os_mkstemp os_write os_unlink s
         = (Raise (exn_of failure), s') ∧
       world s' = w1).
Proof.
  split; [|split].
  - intros rc out err o e w1 Hcheck Hrc Hout Herr.
    pose proof (main_check_failed s rc out err o e w1 Hcheck Hrc Hout Herr) as Hmain.
    unfold script_main. rewrite (bind_Ok _ _ _ _ _ Hmain). by eexists.
  - intros out err o e w1 Hcheck Hout Herr.
    destruct (main_after_check s out err o e w1 Hcheck Hout Herr)
      as (values & raised & s2 & s' & Hcalls & Hw & Hr).
    exists values, raised, s2, s'. split; [exact Hcalls|]. split; [exact Hw|].
    unfold script_main. destruct raised as [ex|].
    + destruct Hr as [_ Hmain]. rewrite (bind_Raise _ _ _ _ _ Hmain). done.
    + destruct Hr as (Hlen & Hmain & _). rewrite (bind_Ok _ _ _ _ _ Hmain). done.
  - intros failure w1 Hcheck. unfold script_main.
    rewrite bind_unfold, main_outcome, run_cmd_outcome. cbn [world printed].
    change (embedded_NUL _ None) with false. cbv iota. rewrite Hcheck.
    by eexists.
Qed.

End HarnessProperties.

(** C10, as stated, fails: on a system where the command exits with status
    zero after writing a byte that does not decode, [run_cmd] with captured
    output returns no triple: the error of the decoding leaves it. *)
Lemma run_cmd_raises_on_undecodable_output :
  ¬ (∀ (World : Type)
       (os_shell : string -> option string -> World ->
                   TestMatrix.os_result (Z * string * string) * World)
       (os_decode : string -> TestMatrix.os_result string)
       (cmd : string) (capture_output : bool) (s : TestMatrix.St World)
       (rc : Z) (out err : string) (w' : World),
       os_shell cmd None (TestMatrix.world s) = (TestMatrix.Done (rc, out, err), w') ->
       ∃ triple s',
         TestMatrix.run_cmd World os_shell os_decode cmd None capture_output s
           = (Ok triple, s') ∧
         triple.1.1 = Z.eqb rc 0).
Proof.
  intros H.
  destruct (H (list TestMatrix.os_event) (TestMatrix.shell_writing_255 0)
              TestMatrix.ascii_decode "docker ps" true
              (TestMatrix.Build_St [] []) 0%Z (String (ascii_of_nat 255) EmptyString)
              EmptyString [TestMatrix.Shell "docker ps"] eq_refl)
    as (triple & s' & Hrun & _).
  vm_compute in Hrun. discriminate.
Qed.

(** The amended C10 on a command that fails with output on stderr, not
    captured. *)
Lemma run_cmd_returns_triple_witness :
  TestMatrix.run_cmd (list TestMatrix.os_event) (TestMatrix.shell_exiting 1)
    TestMatrix.ascii_decode
    "docker run --rm --network host pgwatch-test-py39-dj42" None false
    (TestMatrix.Build_St [] [])
  = (Ok (false, PStr EmptyString, PStr EmptyString),
     TestMatrix.Build_St
       [TestMatrix.Shell "docker run --rm --network host pgwatch-test-py39-dj42"] []).
Proof.
  exact (proj1 (proj1 (proj2 (run_cmd_returns_triple (list TestMatrix.os_event)
                         (TestMatrix.shell_exiting 1) TestMatrix.ascii_decode
                         "docker run --rm --network host pgwatch-test-py39-dj42"
                         None false (TestMatrix.Build_St [] [])))
                  1%Z EmptyString EmptyString
                  [TestMatrix.Shell "docker run --rm --network host pgwatch-test-py39-dj42"]
                  eq_refl eq_refl) eq_refl).
Defined.

(** C9, as stated, fails: on a system where the check succeeds and no
    temporary file can be created, the first call of [test_combination]
    raises, and [main] returns nothing and calls it for no other pair. *)
Lemma main_stops_when_a_call_raises :
  ¬ (∀ (World : Type)
       (os_shell : string -> option string -> World ->
                   TestMatrix.os_result (Z * string * string) * World)
       (os_decode : string -> TestMatrix.os_result string)
       (os_mkstemp : string -> World -> TestMatrix.os_result string * World)
       (os_write : string -> string -> World -> TestMatrix.os_result unit * World)
       (os_unlink : string -> World -> TestMatrix.os_result unit * World)
       (s : TestMatrix.St World) (out err o e : string) (w1 : World),
       os_shell "docker exec pgwatch-postgres psql -U postgres -d test_pgwatch -c 'SELECT 1;'"
         None (TestMatrix.world s) = (TestMatrix.Done (0%Z, out, err), w1) ->
       os_decode out = TestMatrix.Done o ->
       os_decode err = TestMatrix.Done e ->
       ∃ (values : list bool) (s' : TestMatrix.St World),
         length values = 10 ∧
         TestMatrix.main World os_shell os_decode os_mkstemp os_write os_unlink s
           = (Ok (forallb id values), s')).
Proof.
  intros H.
  destruct (H (list TestMatrix.os_event) (TestMatrix.shell_exiting 0)
              TestMatrix.ascii_decode TestMatrix.mkstemp_failing TestMatrix.write_ok
              TestMatrix.unlink_ok (TestMatrix.Build_St [] [])
              EmptyString EmptyString EmptyString EmptyString
              [TestMatrix.Shell "docker exec pgwatch-postgres psql -U postgres -d test_pgwatch -c 'SELECT 1;'"]
              eq_refl eq_refl eq_refl)
    as (values & s' & _ & Hmain).
  vm_compute in Hmain. discriminate.
Qed.

(** The amended C9 on a system where every command succeeds. *)
Lemma main_runs_every_combination_witness :
  ∃ (values : list bool) (raised : option exn)
    (s2 s' : TestMatrix.St (list TestMatrix.os_event)),
    TestMatrix.called_in_order (list TestMatrix.os_event) (TestMatrix.shell_exiting 0)
      TestMatrix.ascii_decode TestMatrix.mkstemp_ok TestMatrix.write_ok
      TestMatrix.unlink_ok TestMatrix.MATRIX
      (TestMatrix.Build_St
         [TestMatrix.Shell "docker exec pgwatch-postgres psql -U postgres -d test_pgwatch -c 'SELECT 1;'"]
         [[Lit "Checking PostgreSQL connection..."]])
      values raised s2 ∧
    TestMatrix.world s' = TestMatrix.world s2 ∧
    match raised with
    | None =>
        length values = 10 ∧
        TestMatrix.main (list TestMatrix.os_event) (TestMatrix.shell_exiting 0)
          TestMatrix.ascii_decode TestMatrix.mkstemp_ok TestMatrix.write_ok
          TestMatrix.unlink_ok (TestMatrix.Build_St [] [])
        = (Ok (forallb id values), s')
    | Some ex =>
        length values < 10 ∧
        TestMatrix.main (list TestMatrix.os_event) (TestMatrix.shell_exiting 0)
          TestMatrix.ascii_decode TestMatrix.mkstemp_ok TestMatrix.write_ok
          TestMatrix.unlink_ok (TestMatrix.Build_St [] [])
        = (Raise ex, s')
    end.
Proof.
  exact (main_runs_every_combination (list TestMatrix.os_event)
           (TestMatrix.shell_exiting 0) TestMatrix.ascii_decode TestMatrix.mkstemp_ok
           TestMatrix.write_ok TestMatrix.unlink_ok (TestMatrix.Build_St [] [])
           EmptyString EmptyString EmptyString EmptyString
           [TestMatrix.Shell "docker exec pgwatch-postgres psql -U postgres -d test_pgwatch -c 'SELECT 1;'"]
           eq_refl eq_refl eq_refl).
Defined.

(** X12 on a system where the check exits with status 1. *)
Lemma main_stops_without_postgres_witness :
  TestMatrix.main (list TestMatrix.os_event) (TestMatrix.shell_exiting 1)
    TestMatrix.ascii_decode TestMatrix.mkstemp_ok TestMatrix.write_ok TestMatrix.unlink_ok
    (TestMatrix.Build_St [] [])
  = (Ok false,
     TestMatrix.Build_St
       [TestMatrix.Shell "docker exec pgwatch-postgres psql -U postgres -d test_pgwatch -c 'SELECT 1;'"]
       ([[Lit "Checking PostgreSQL connection..."];
         [Lit "‚ùå PostgreSQL not running. Please start it first:"];
         [Lit "docker run --name pgwatch-postgres -d -e POSTGRES_PASSWORD=postgres -e POSTGRES_USER=postgres -e POSTGRES_DB=test_pgwatch -p 55235:5432 postgres:15"]])).
Proof.
  exact (proj1 (main_stops_without_postgres (list TestMatrix.os_event)
                  (TestMatrix.shell_exiting 1) TestMatrix.ascii_decode
                  TestMatrix.mkstemp_ok TestMatrix.write_ok TestMatrix.unlink_ok
                  (TestMatrix.Build_St [] []))
           1%Z EmptyString EmptyString EmptyString EmptyString
           [TestMatrix.Shell "docker exec pgwatch-postgres psql -U postgres -d test_pgwatch -c 'SELECT 1;'"]
           eq_refl ltac:(discriminate) eq_refl eq_refl).
Defined.

(** X13 on a system where every command succeeds. *)
Lemma main_summary_reports_the_calls_witness :
  ∃ (values : list bool) (raised : option exn)
    (s2 s' : TestMatrix.St (list TestMatrix.os_event)),
    TestMatrix.called_in_order (list TestMatrix.os_event) (TestMatrix.shell_exiting 0)
      TestMatrix.ascii_decode TestMatrix.mkstemp_ok TestMatrix.write_ok
      TestMatrix.unlink_ok TestMatrix.MATRIX
      (TestMatrix.Build_St
         [TestMatrix.Shell "docker exec pgwatch-postgres psql -U postgres -d test_pgwatch -c 'SELECT 1;'"]
         [[Lit "Checking PostgreSQL connection..."]])
      values raised s2 ∧
    TestMatrix.main (list TestMatrix.os_event) (TestMatrix.shell_exiting 0)
      TestMatrix.ascii_decode TestMatrix.mkstemp_ok TestMatrix.write_ok
      TestMatrix.unlink_ok (TestMatrix.Build_St [] [])
    = (match raised with
       | None => Ok (forallb id values)
       | Some ex => Raise ex
       end, s') ∧
    (raised = None ->
     ∃ before,
       TestMatrix.printed s' =
        before ++
        [[Lit (TestMatrix.NL +:+ TestMatrix.str_repeat "=" 60)]; [Lit "SUMMARY"];
          [Lit (TestMatrix.str_repeat "=" 60)]] ++
         map (fun item : string * string * bool =>
                [Lit ("Python " +:+ item.1.1 +:+ " + Django " +:+ item.1.2 +:+ ": " +:+
                      (if item.2 then "‚úÖ PASS" else "‚ùå FAIL"))])
             (zip TestMatrix.MATRIX values) ++
         [[Lit (TestMatrix.NL +:+ "Total: ");
           Fmt (PInt (Z.of_nat (length (List.filter id values))));
           Lit "/"; Fmt (PInt 10); Lit " combinations tested"];
          (if forallb id values
           then [Lit "üéâ All tested combinations passed!"]
           else [Lit "üí• ";
                 Fmt (PInt (Z.of_nat (length (List.filter negb values))));
                 Lit " combinations failed"])]).
Proof.
  exact (main_summary_reports_the_calls (list TestMatrix.os_event)
           (TestMatrix.shell_exiting 0) TestMatrix.ascii_decode TestMatrix.mkstemp_ok
           TestMatrix.write_ok TestMatrix.unlink_ok (TestMatrix.Build_St [] [])
           EmptyString EmptyString EmptyString EmptyString
           [TestMatrix.Shell "docker exec pgwatch-postgres psql -U postgres -d test_pgwatch -c 'SELECT 1;'"]
           eq_refl eq_refl eq_refl).
Defined.


(** X14 on a system where the check exits with status 1: the script exits
    with status 1. *)
Lemma script_main_exit_status_witness :
  ∃ s',
    TestMatrix.script_main (list TestMatrix.os_event) (TestMatrix.shell_exiting 1)
      TestMatrix.ascii_decode TestMatrix.mkstemp_ok TestMatrix.write_ok
      TestMatrix.unlink_ok (TestMatrix.Build_St [] [])
    = (Raise (SystemExit 1), s') ∧
    TestMatrix.world s'
    = [TestMatrix.Shell "docker exec pgwatch-postgres psql -U postgres -d test_pgwatch -c 'SELECT 1;'"].
Proof.
  exact (proj1 (script_main_exit_status (list TestMatrix.os_event)
                  (TestMatrix.shell_exiting 1) TestMatrix.ascii_decode
                  TestMatrix.mkstemp_ok TestMatrix.write_ok TestMatrix.unlink_ok
                  (TestMatrix.Build_St [] []))
           1%Z EmptyString EmptyString EmptyString EmptyString
           [TestMatrix.Shell "docker exec pgwatch-postgres psql -U postgres -d test_pgwatch -c 'SELECT 1;'"]
           eq_refl ltac:(discriminate) eq_refl eq_refl).
Defined.

(* ===================================================================== *)
(** * Part VII. Properties of the dispatch engine *)
(* ===================================================================== *)

Section EngineProperties.

Import Engine.

(** ** Frames *)

Lemma touches_refl (P : string -> string -> Prop) (e : Engine) : touches P e e.
Proof.
  split; try done. exists []. by rewrite app_nil_r.
Qed.

Lemma touches_trans (P : string -> string -> Prop) (e1 e2 e3 : Engine) :
  touches P e1 e2 -> touches P e2 e3 -> touches P e1 e3.
Proof.
  intros [S1 R1 L1 B1 M1 O1 (n1 & D1 & F1)] [S2 R2 L2 B2 M2 O2 (n2 & D2 & F2)].
  split; try congruence.
  - intros cid c. specialize (M1 cid c). specialize (M2 cid c). lia.
  - intros cid c HP. rewrite O2, O1; done.
  - exists (n1 ++ n2). rewrite D2, D1, app_assoc. split; [done|].
    by apply Forall_app.
Qed.

Lemma touches_weaken (P Q : string -> string -> Prop) (e e' : Engine) :
  (∀ a b, P a b -> Q a b) -> touches P e e' -> touches Q e e'.
Proof.
  intros HPQ [S1 R1 L1 B1 M1 O1 (n1 & D1 & F1)].
  split; try done.
  - intros cid c HQ. apply O1. intros HP. apply HQ, HPQ, HP.
  - exists n1. split; [done|]. eapply Forall_impl; [exact F1|]. intros d. apply HPQ.
Qed.

Lemma invoke_touches (cid : string) (n : Notification) (is_replay : bool) (e : Engine) :
  touches (λ a b, a = cid ∧ b = channel n) e (invoke cid n is_replay e).2.
Proof.
  unfold invoke. destruct (registrations (registry e) !! cid) as [reg|];
    [|apply touches_refl].
  destruct (reg_callback reg (handler_of n is_replay) (console e)) as [[u|ex] out]; simpl.
  - split; try done. eexists [_]. split; [done|]. by repeat constructor.
  - split; try done. eexists [_]. split; [done|]. by repeat constructor.
Qed.

Lemma invoke_registry (cid : string) (n : Notification) (is_replay : bool) (e : Engine) :
  registry (invoke cid n is_replay e).2 = registry e.
Proof.
  unfold invoke. destruct (registrations (registry e) !! cid) as [reg|]; [|done].
  by destruct (reg_callback reg (handler_of n is_replay) (console e)) as [[u|ex] out].
Qed.

Lemma checkpoint_insert (r : ConsumerRegistry) (cid c : string) (seq : nat)
    (cid' c' : string) :
  checkpoint {| registrations := registrations r;
                checkpoints := <[(cid, c) := seq]> (checkpoints r) |} cid' c'
  = if decide ((cid, c) = (cid', c')) then seq else checkpoint r cid' c'.
Proof.
  unfold checkpoint. simpl. rewrite lookup_insert.
  by destruct (decide ((cid, c) = (cid', c'))).
Qed.

Lemma engine_advance_touches (cid c : string) (seq : nat) (e : Engine) :
  touches (λ a b, a = cid ∧ b = c) e (engine_advance cid c seq e).2.
Proof.
  unfold engine_advance, advance_checkpoint.
  destruct (decide (seq < checkpoint (registry e) cid c)) as [Hlt|Hge]; simpl.
  - split; try done; try (by destruct (registry e)).
    exists []. by rewrite app_nil_r.
  - split; try done.
    + intros cid' c'. unfold checkpoint in *. simpl. rewrite lookup_insert.
      destruct (decide ((cid, c) = (cid', c'))) as [[= <- <-]|]; simpl; lia.
    + intros cid' c' HP. simpl. rewrite lookup_insert_ne; [done|].
      intros [= <- <-]. by apply HP.
    + exists []. by rewrite app_nil_r.
Qed.

Lemma deliver_to_touches (cid : string) (n : Notification) (is_replay : bool) (e : Engine) :
  touches (λ a b, a = cid ∧ b = channel n) e (deliver_to cid n is_replay e).2.
Proof.
  unfold deliver_to. destruct (behind cid n e); [apply touches_refl|].
  pose proof (invoke_touches cid n is_replay e) as H1.
  destruct (invoke cid n is_replay e) as [o e1]; simpl in H1.
  destruct o; try exact H1.
  pose proof (engine_advance_touches cid (channel n) (sequence n) e1) as H2.
  destruct (engine_advance cid (channel n) (sequence n) e1) as [[err|u] e2];
    simpl in *; eapply touches_trans; eauto.
Qed.

Lemma deliver_batch_touches (cid c : string) (batch : list Notification) (e : Engine) :
  Forall (λ n, channel n = c) batch ->
  touches (λ a b, a = cid ∧ b = c) e (deliver_batch cid batch e).2.
Proof.
  revert e. induction batch as [|n batch IH]; intros e Hc; simpl.
  - apply touches_refl.
  - apply Forall_cons in Hc as [Hn Hc].
    pose proof (invoke_touches cid n true e) as H1. rewrite Hn in H1.
    destruct (invoke cid n true e) as [o e1]; simpl in H1.
    destruct o; try exact H1.
    eapply touches_trans; [exact H1 | by apply IH].
Qed.

Lemma read_range_channel (s : OutboxStore) (c : string) (after : nat) (limit : option nat) :
  Forall (λ n, channel n = c) (read_range s c after limit).
Proof.
  unfold read_range.
  assert (H : Forall (λ n, channel n = c)
                (filter (λ n, channel n = c ∧ after < sequence n) (rows s))).
  { apply Forall_forall. intros n Hn. by apply list_elem_of_filter in Hn as [[? ?] _]. }
  destruct limit; [by apply Forall_take | done].
Qed.

Lemma catch_up_channel_S (fuel : nat) (cid c : string) (e : Engine) :
  catch_up_channel (S fuel) cid c e =
    let batch :=
      read_range (store e) c (checkpoint (registry e) cid c)
                 (Some (Pos.to_nat (batch_size e))) in
    match last batch with
    | None => e
    | Some newest =>
        match deliver_batch cid batch e with
        | (true, e1) =>
            match engine_advance cid c (sequence newest) e1 with
            | (inr _, e2) => catch_up_channel fuel cid c e2
            | (inl _, e2) => e2
            end
        | (false, e1) => e1
        end
    end.
Proof. reflexivity. Qed.

Lemma catch_up_channel_touches (fuel : nat) (cid c : string) (e : Engine) :
  touches (λ a b, a = cid ∧ b = c) e (catch_up_channel fuel cid c e).
Proof.
  revert e. induction fuel as [|fuel IH]; intros e; [apply touches_refl|].
  rewrite catch_up_channel_S. cbv zeta.
  set (batch := read_range (store e) c (checkpoint (registry e) cid c)
                  (Some (Pos.to_nat (batch_size e)))).
  destruct (last batch) as [newest|]; [|apply touches_refl].
  pose proof (deliver_batch_touches cid c batch e (read_range_channel _ _ _ _)) as H1.
  destruct (deliver_batch cid batch e) as [[] e1]; simpl in H1; [|exact H1].
  pose proof (engine_advance_touches cid c (sequence newest) e1) as H2.
  destruct (engine_advance cid c (sequence newest) e1) as [[err|u] e2]; simpl in H2.
  - eapply touches_trans; eauto.
  - eapply touches_trans; [|apply IH]. eapply touches_trans; eauto.
Qed.

(** A fold of steps that each touch within [P] touches within [P]. *)
Lemma foldl_touches {A : Type} (P : string -> string -> Prop)
    (f : Engine -> A -> Engine) (l : list A) (e : Engine) :
  (∀ e' x, touches P e' (f e' x)) -> touches P e (foldl f e l).
Proof.
  intros Hf. revert e. induction l as [|x l IH]; intros e; simpl.
  - apply touches_refl.
  - eapply touches_trans; [apply Hf | apply IH].
Qed.

Lemma catch_up_touches (cid : string) (e : Engine) :
  touches (λ a _, a = cid) e (catch_up cid e).
Proof.
  unfold catch_up. destruct (registrations (registry e) !! cid) as [reg|];
    [|apply touches_refl].
  apply foldl_touches. intros e' c.
  eapply touches_weaken; [|apply catch_up_channel_touches]. by intros a b [-> _].
Qed.

Lemma catch_up_all_touches (e : Engine) : touches (λ _ _, True) e (catch_up_all e).
Proof.
  unfold catch_up_all. apply foldl_touches. intros e' cid.
  eapply touches_weaken; [|apply catch_up_touches]. done.
Qed.

Lemma deliver_fold_touches (n : Notification) (is_replay : bool) (l : list string)
    (outs : list (string * outcome)) (e : Engine) :
  touches (λ _ b, b = channel n) e
    (foldl (λ acc cid,
              match deliver_to cid n is_replay acc.2 with
              | (o, e') => (acc.1 ++ [(cid, o)], e')
              end) (outs, e) l).2.
Proof.
  revert outs e. induction l as [|cid l IH]; intros outs e; simpl.
  - apply touches_refl.
  - pose proof (deliver_to_touches cid n is_replay e) as H1.
    destruct (deliver_to cid n is_replay e) as [o e1]; simpl in *.
    eapply touches_trans; [|apply IH].
    eapply touches_weaken; [|exact H1]. by intros a b [_ ->].
Qed.

Lemma deliver_touches (n : Notification) (is_replay : bool) (e : Engine) :
  touches (λ _ b, b = channel n) e (deliver n is_replay e).2.
Proof. apply deliver_fold_touches. Qed.

(** ** The store *)

Lemma StronglySorted_filter {A : Type} (R : relation A) (P : A -> Prop)
    `{∀ x, Decision (P x)} (l : list A) :
  StronglySorted R l -> StronglySorted R (filter P l).
Proof.
  induction 1 as [|x l Hs IH Hx]; [constructor|].
  rewrite filter_cons. destruct (decide (P x)); [|done].
  constructor; [done|]. apply Forall_forall. intros y Hy.
  apply list_elem_of_filter in Hy as [_ Hy]. by eapply Forall_forall in Hx.
Qed.

Lemma filter_swap {A : Type} (P Q : A -> Prop)
    `{!∀ x, Decision (P x), !∀ x, Decision (Q x)} (l : list A) :
  filter P (filter Q l) = filter Q (filter P l).
Proof. rewrite !list_filter_filter. apply list_filter_iff. intros x. tauto. Qed.

Lemma max_sequence_append (ts : nat) (c : string) (p : Payload) (s : OutboxStore)
    (c' : string) :
  max_sequence (append ts c p s).2 c' =
    if decide (c = c') then S (max_sequence s c) else max_sequence s c'.
Proof.
  unfold max_sequence, append. simpl. rewrite lookup_insert.
  by destruct (decide (c = c')).
Qed.

Lemma rows_append (ts : nat) (c : string) (p : Payload) (s : OutboxStore) :
  rows (append ts c p s).2 =
    rows s ++ [ {| sequence := S (max_sequence s c); channel := c; payload := p;
                   created_at := ts |} ].
Proof. reflexivity. Qed.

Lemma store_wf_empty : store_wf empty_store.
Proof. split; [intros c; constructor | constructor]. Qed.

Lemma store_wf_append (ts : nat) (c : string) (p : Payload) (s : OutboxStore) :
  store_wf s -> store_wf (append ts c p s).2.
Proof.
  intros [Hsorted Hbound]. split.
  - intros c'. unfold on_channel. rewrite rows_append.
    rewrite filter_app. apply StronglySorted_app_2.
    + intros x1 x2 H1 H2. rewrite filter_cons in H2. simpl in H2.
      destruct (decide (c = c')) as [->|]; [|by apply elem_of_nil in H2].
      apply list_elem_of_singleton in H2 as ->.
      apply list_elem_of_filter in H1 as [Hc H1].
      eapply Forall_forall in Hbound; [|exact H1]. rewrite Hc in Hbound.
      unfold seq_lt. simpl. lia.
    + apply Hsorted.
    + rewrite filter_cons. simpl. destruct (decide (c = c')); repeat constructor.
  - rewrite rows_append. apply Forall_app. split.
    + eapply Forall_impl; [exact Hbound|]. intros n [Hpos Hle]. split; [done|].
      rewrite max_sequence_append. destruct (decide (c = channel n)) as [->|]; lia.
    + constructor; [|constructor]. cbn [sequence channel].
      rewrite max_sequence_append. destruct (decide (c = c)); [lia | done].
Qed.

Lemma store_wf_trim (r : ConsumerRegistry) (c : string) (before : nat) (s : OutboxStore) :
  store_wf s -> store_wf (trim r c before s).
Proof.
  intros [Hsorted Hbound]. split.
  - intros c'. unfold on_channel, trim. simpl.
    rewrite filter_swap. apply StronglySorted_filter, Hsorted.
  - unfold trim. simpl. apply Forall_forall. intros n Hn.
    apply list_elem_of_filter in Hn as [_ Hn].
    by eapply Forall_forall in Hbound.
Qed.

(** What an event does to the store: only publishing and trimming change
    it. *)
Lemma step_store (ev : event) (e : Engine) :
  store (step ev e) =
    match ev with
    | Publish ts c p => (append ts c p (store e)).2
    | Trim c before => trim (registry e) c before (store e)
    | _ => store e
    end.
Proof.
  destruct ev; cbn [step]; try done.
  - unfold publish. destruct (append ts c p (store e)) as [seq s'] eqn:E.
    destruct (decide (listener e = SUBSCRIBED)); cbn [snd]; [|done].
    by rewrite (t_store _ _ _ (deliver_touches _ false _)).
  - by rewrite (t_store _ _ _ (catch_up_touches _ _)).
  - by rewrite (t_store _ _ _ (catch_up_touches _ _)).
  - by rewrite (t_store _ _ _ (engine_advance_touches _ _ _ _)).
  - by destruct (decide (listener e = DISCONNECTED)).
  - destruct (decide (listener e = CONNECTING)); [|done].
    by rewrite (t_store _ _ _ (catch_up_all_touches _)).
Qed.

Lemma step_store_wf (ev : event) (e : Engine) :
  store_wf (store e) -> store_wf (store (step ev e)).
Proof.
  intros Hwf. rewrite step_store.
  destruct ev; try done; [by apply store_wf_append | by apply store_wf_trim].
Qed.

Lemma run_app (evs1 evs2 : list event) (e : Engine) :
  run (evs1 ++ evs2) e = run evs2 (run evs1 e).
Proof. apply foldl_app. Qed.

Lemma run_store_wf (evs : list event) (e : Engine) :
  store_wf (store e) -> store_wf (store (run evs e)).
Proof.
  revert e. induction evs as [|ev evs IH]; intros e Hwf; [done|].
  simpl. apply IH, step_store_wf, Hwf.
Qed.

Lemma step_max_sequence (ev : event) (e : Engine) (c : string) :
  max_sequence (store e) c ≤ max_sequence (store (step ev e)) c.
Proof.
  rewrite step_store. destruct ev; try done.
  rewrite max_sequence_append. destruct (decide (c0 = c)) as [->|]; lia.
Qed.

Lemma run_max_sequence (evs : list event) (e : Engine) (c : string) :
  max_sequence (store e) c ≤ max_sequence (store (run evs e)) c.
Proof.
  revert e. induction evs as [|ev evs IH]; intros e; [done|].
  simpl. etrans; [apply step_max_sequence | apply IH].
Qed.

Lemma publish_sequence (ts : nat) (c : string) (p : Payload) (e : Engine) :
  (publish ts c p e).1 = S (max_sequence (store e) c).
Proof.
  unfold publish. simpl.
  by destruct (decide (listener e = SUBSCRIBED)).
Qed.

Lemma assigned_bound (c : string) (evs : list event) (e : Engine) :
  Forall (λ s, s ≤ max_sequence (store (run evs e)) c) (assigned c evs e).
Proof.
  revert e. induction evs as [|ev evs IH]; intros e; [constructor|].
  cbn [assigned run foldl]. apply Forall_app. split; [|apply IH].
  destruct ev; try constructor.
  destruct (decide (c0 = c)) as [->|]; [|constructor].
  constructor; [|constructor].
  rewrite publish_sequence.
  etrans; [|apply run_max_sequence].
  rewrite (step_store (Publish ts c p) e), max_sequence_append.
  by destruct (decide (c = c)).
Qed.

(** C5: after any run of the engine, [publish(c, p)] followed immediately
    by [read_range(c, 0, ∞)] yields an entry whose payload is [p] and whose
    sequence is the one [publish] returned; that sequence is strictly greater
    than every sequence the run assigned on [c] and than the sequence of
    every notification stored on [c]. *)
Theorem publish_read_range_round_trip (batch : positive) (evs : list event)
    (ts : nat) (c : string) (p : Payload) :
  let e := run evs (init batch) in
  let seq := (publish ts c p e).1 in
  let e' := (publish ts c p e).2 in
  (∃ n, n ∈ read_range (store e') c 0 None ∧ payload n = p ∧ sequence n = seq) ∧
  Forall (λ s, s < seq) (assigned c evs (init batch)) ∧
  Forall (λ n, sequence n < seq) (on_channel c (store e)).
Proof.
  intros e seq e'.
  assert (Hseq : seq = S (max_sequence (store e) c)) by apply publish_sequence.
  assert (Hstore : store e' = (append ts c p (store e)).2)
    by apply (step_store (Publish ts c p) e).
  split; [|split].
  - exists {| sequence := seq; channel := c; payload := p; created_at := ts |}.
    split; [|done]. unfold read_range. rewrite Hstore, rows_append.
    apply list_elem_of_filter. split; [simpl; split; [done | lia]|].
    apply elem_of_app. right. rewrite Hseq. apply list_elem_of_singleton. done.
  - eapply Forall_impl; [apply assigned_bound|]. simpl. fold e. intros s Hs. lia.
  - assert (Hwf : store_wf (store e)) by apply run_store_wf, store_wf_empty.
    destruct Hwf as [_ Hbound]. apply Forall_forall. intros n Hn.
    apply list_elem_of_filter in Hn as [Hc Hn].
    eapply Forall_forall in Hbound; [|exact Hn]. rewrite Hc in Hbound. lia.
Qed.

(** ** Trimming *)

Lemma min_list_spec (l : list nat) (m : nat) :
  min_list l = Some m -> m ∈ l ∧ Forall (λ x, m ≤ x) l.
Proof.
  destruct l as [|x l]; [done|]. intros [= <-].
  induction l as [|y l [IHin IHle]]; simpl.
  - split; [apply list_elem_of_here | by repeat constructor].
  - apply Forall_cons in IHle as [Hx IHle]. split.
    + destruct (Nat.min_spec y (foldr Nat.min x l)) as [[_ ->]|[_ ->]].
      * apply list_elem_of_further, list_elem_of_here.
      * apply elem_of_cons in IHin as [->|IHin];
          [apply list_elem_of_here | by do 2 apply list_elem_of_further].
    + constructor; [lia|]. constructor; [lia|].
      eapply Forall_impl; [exact IHle|]. simpl. lia.
Qed.

(** The minimum checkpoint is the checkpoint of a subscriber, and no
    subscriber is below it. *)
Lemma min_checkpoint_spec (r : ConsumerRegistry) (c : string) (m : nat) :
  min_checkpoint r c = Some m ->
  (∃ cid, cid ∈ subscribers_for r c ∧ checkpoint r cid c = m) ∧
  (∀ cid, cid ∈ subscribers_for r c -> m ≤ checkpoint r cid c).
Proof.
  intros H. apply min_list_spec in H as [Hin Hle]. split.
  - apply list_elem_of_fmap in Hin as (cid & -> & Hcid).
    exists cid. by rewrite elem_of_elements in Hcid.
  - intros cid Hcid. rewrite Forall_fmap, Forall_forall in Hle.
    apply (Hle cid). by apply elem_of_elements.
Qed.

Lemma min_checkpoint_is_Some (r : ConsumerRegistry) (c cid : string) :
  cid ∈ subscribers_for r c -> is_Some (min_checkpoint r c).
Proof.
  intros Hcid. unfold min_checkpoint.
  apply elem_of_elements in Hcid.
  destruct (elements (subscribers_for r c)); [by apply elem_of_nil in Hcid|].
  by eexists.
Qed.

(** C3: after [trim(c, S)] every persisted notification on [c] whose
    sequence exceeds the minimum checkpoint across the consumers registered
    on [c] is still in the store, and so is every notification some
    subscriber has not been delivered yet; what [trim] removes is older than
    the boundary and at or below that minimum. *)
Theorem trim_keeps_undelivered (r : ConsumerRegistry) (s : OutboxStore) (c : string)
    (before_sequence : nat) (n : Notification) :
  n ∈ rows s ->
  channel n = c ->
  (∀ m, min_checkpoint r c = Some m -> m < sequence n ->
        n ∈ rows (trim r c before_sequence s)) ∧
  (∀ cid, cid ∈ subscribers_for r c -> checkpoint r cid c < sequence n ->
          n ∈ rows (trim r c before_sequence s)) ∧
  (n ∉ rows (trim r c before_sequence s) ->
   sequence n < before_sequence ∧
   ∃ m, min_checkpoint r c = Some m ∧ sequence n ≤ m).
Proof.
  intros Hn Hc.
  assert (Hkeep : ∀ m, min_checkpoint r c = Some m -> m < sequence n ->
                       n ∈ rows (trim r c before_sequence s)).
  { intros m Hm Hlt. unfold trim. simpl. apply list_elem_of_filter. split; [|done].
    unfold removable. rewrite Hm.
    replace (sequence n <=? m) with false; [by rewrite andb_false_r|].
    symmetry. apply Nat.leb_gt. lia. }
  split; [exact Hkeep|]. split.
  - intros cid Hcid Hlt.
    destruct (min_checkpoint_is_Some r c cid Hcid) as [m Hm].
    apply (Hkeep m Hm).
    apply min_checkpoint_spec in Hm as [_ Hle]. specialize (Hle cid Hcid). lia.
  - intros Hgone.
    destruct (removable r c before_sequence n) eqn:E.
    + unfold removable in E.
      apply andb_true_iff in E as [E Hmin]. apply andb_true_iff in E as [_ Hold].
      apply Nat.ltb_lt in Hold. split; [done|].
      destruct (min_checkpoint r c) as [m|]; [|done].
      exists m. split; [done|]. by apply Nat.leb_le.
    + exfalso. apply Hgone. unfold trim. simpl. by apply list_elem_of_filter.
Qed.

(** ** The registry *)

Lemma register_checkpoints_lookup (s : OutboxStore) (cid : string) (chans : gset string)
    (from : replay_from) (cb : Callback) (r : ConsumerRegistry) (cid' c' : string) :
  checkpoints (register s cid chans from cb r) !! (cid', c') =
    match checkpoints r !! (cid', c') with
    | Some v => Some v
    | None =>
        if decide (cid' = cid ∧ c' ∈ chans)
        then Some (initial_checkpoint s from c') else None
    end.
Proof.
  unfold register. simpl.
  assert (H : ∀ l : list string,
    foldr (λ c cps,
             match cps !! (cid, c) with
             | Some _ => cps
             | None => <[(cid, c) := initial_checkpoint s from c]> cps
             end) (checkpoints r) l !! (cid', c') =
    match checkpoints r !! (cid', c') with
    | Some v => Some v
    | None =>
        if decide (cid' = cid ∧ c' ∈ l)
        then Some (initial_checkpoint s from c') else None
    end).
  { induction l as [|c l IH]; simpl.
    - destruct (checkpoints r !! (cid', c')); [done|].
      rewrite decide_False; [done|]. intros [_ H]. by apply elem_of_nil in H.
    - match goal with |- context [foldr ?f ?a l] => set (m := foldr f a l) in * end.
      destruct (decide ((cid, c) = (cid', c'))) as [[= <- <-]|Hne].
      + assert (Hhere : cid = cid ∧ c ∈ c :: l) by (split; [done | apply list_elem_of_here]).
        destruct (m !! (cid, c)) as [w|] eqn:Em.
        * rewrite Em. destruct (checkpoints r !! (cid, c)) as [v|]; [exact IH|].
          rewrite decide_True by exact Hhere.
          destruct (decide (cid = cid ∧ c ∈ l)); [exact IH | discriminate].
        * rewrite lookup_insert_eq.
          destruct (checkpoints r !! (cid, c)) as [v|]; [discriminate|].
          by rewrite decide_True by exact Hhere.
      + assert (Hm : match m !! (cid, c) with
                     | Some _ => m
                     | None => <[(cid, c) := initial_checkpoint s from c]> m
                     end !! (cid', c') = m !! (cid', c')).
        { destruct (m !! (cid, c)); [done | by rewrite lookup_insert_ne]. }
        rewrite Hm, IH. destruct (checkpoints r !! (cid', c')); [done|].
        apply decide_ext. rewrite elem_of_cons. split.
        * intros [-> Hin]. split; [done | by right].
        * intros [-> [->|Hin]]; [done | by split]. }
  rewrite H. destruct (checkpoints r !! (cid', c')); [done|].
  apply decide_ext. by rewrite elem_of_elements.
Qed.

Lemma register_checkpoint_mono (s : OutboxStore) (cid : string) (chans : gset string)
    (from : replay_from) (cb : Callback) (r : ConsumerRegistry) (cid' c' : string) :
  checkpoint r cid' c' ≤ checkpoint (register s cid chans from cb r) cid' c'.
Proof.
  unfold checkpoint. rewrite register_checkpoints_lookup.
  destruct (checkpoints r !! (cid', c')); simpl; lia.
Qed.

Lemma deregister_checkpoints_lookup (cid : string) (r : ConsumerRegistry) (cid' c' : string) :
  cid' ≠ cid ->
  checkpoints (deregister cid r) !! (cid', c') = checkpoints r !! (cid', c').
Proof.
  intros Hne. unfold deregister. simpl.
  destruct (checkpoints r !! (cid', c')) as [v|] eqn:E.
  - by apply map_lookup_filter_Some.
  - apply map_lookup_filter_None. by left.
Qed.

(** No event lowers a checkpoint, unless it de-registers the consumer. *)
Lemma step_checkpoint_mono (ev : event) (e : Engine) (cid c : string) :
  keeps cid ev ->
  checkpoint (registry e) cid c ≤ checkpoint (registry (step ev e)) cid c.
Proof.
  intros Hkeeps. destruct ev; cbn [step].
  - unfold publish. destruct (append ts c0 p (store e)) as [seq s'].
    destruct (decide (listener e = SUBSCRIBED)); cbn [snd]; [|done].
    etrans; [|apply (t_mono _ _ _ (deliver_touches _ false _))]. done.
  - etrans; [|apply (t_mono _ _ _ (catch_up_touches _ _))].
    apply register_checkpoint_mono.
  - simpl in Hkeeps. unfold checkpoint. cbn [registry set_registry].
    by rewrite deregister_checkpoints_lookup.
  - apply (t_mono _ _ _ (catch_up_touches _ _)).
  - done.
  - apply (t_mono _ _ _ (engine_advance_touches _ _ _ _)).
  - by destruct (decide (listener e = DISCONNECTED)).
  - destruct (decide (listener e = CONNECTING)); [|done].
    etrans; [|apply (t_mono _ _ _ (catch_up_all_touches _))]. done.
  - done.
Qed.

(** C4: [advance_checkpoint(consumer_id, channel, sequence)] fails with
    CheckpointError exactly when [sequence] is less than the current
    checkpoint, and then leaves the registry as it was; otherwise it
    succeeds and the checkpoint is [sequence].  Consequently, over any run
    of the engine that does not de-register the consumer, its checkpoint
    never goes down. *)
Theorem advance_checkpoint_monotone (cid c : string) (seq : nat) :
  (∀ r : ConsumerRegistry,
     seq < checkpoint r cid c ->
     advance_checkpoint cid c seq r
       = (inl (CheckpointError cid c (checkpoint r cid c) seq), r)) ∧
  (∀ r : ConsumerRegistry,
     ¬ seq < checkpoint r cid c ->
     ∃ r', advance_checkpoint cid c seq r = (inr tt, r') ∧
           checkpoint r' cid c = seq ∧
           registrations r' = registrations r) ∧
  (∀ (evs : list event) (e : Engine),
     Forall (keeps cid) evs ->
     checkpoint (registry e) cid c ≤ checkpoint (registry (run evs e)) cid c).
Proof.
  split; [|split].
  - intros r Hlt. unfold advance_checkpoint. by rewrite decide_True.
  - intros r Hge. unfold advance_checkpoint. rewrite decide_False by done.
    eexists. split; [done|]. split; [|done].
    unfold checkpoint. simpl. by rewrite lookup_insert_eq.
  - intros evs. induction evs as [|ev evs IH]; intros e Hk; [done|].
    apply Forall_cons in Hk as [Hev Hk]. cbn [run foldl].
    etrans; [apply (step_checkpoint_mono ev e cid c Hev)|]. by apply IH.
Qed.

(** ** Replay for a consumer that never fails *)













(** ** The invariant of a consumer that never fails *)























(** ** Failure isolation *)








(** ** The notification a consumer failed on stays pending *)
















(** ** The theorems on the scenarios *)





(** C3 on a store of three notifications with consumers at checkpoints 2
    and 1: trimming up to 10 keeps the notification of sequence 2. *)
Lemma trim_keeps_undelivered_witness :
  min_checkpoint lagging_registry "data_change" = Some 1 ∧
  {| sequence := 2; channel := "data_change"; payload := alice_update; created_at := 2 |}
    ∈ rows (trim lagging_registry "data_change" 10 three_rows).
Proof.
  assert (Hmin : min_checkpoint lagging_registry "data_change" = Some 1)
    by (vm_compute; reflexivity).
  split; [exact Hmin|].
  refine (proj1 (trim_keeps_undelivered lagging_registry three_rows "data_change" 10
                   {| sequence := 2; channel := "data_change"; payload := alice_update;
                      created_at := 2 |} _ eq_refl) 1 Hmin _).
  - apply list_elem_of_further, list_elem_of_here.
  - simpl. lia.
Defined.

(** C4 on the registry with the analytics consumer at checkpoint 2: going
    back to 1 is rejected, and the run of the scenario never lowers it. *)
Lemma advance_checkpoint_monotone_witness :
  advance_checkpoint "analytics_consumer" "data_change" 1 lagging_registry
    = (inl (CheckpointError "analytics_consumer" "data_change"
              (checkpoint lagging_registry "analytics_consumer" "data_change") 1),
       lagging_registry) ∧
  checkpoint (registry three_published) "analytics_consumer" "data_change"
    ≤ checkpoint (registry (run later_events three_published))
        "analytics_consumer" "data_change".
Proof.
  split.
  - apply (proj1 (advance_checkpoint_monotone "analytics_consumer" "data_change" 1)).
    vm_compute. lia.
  - apply (proj2 (proj2 (advance_checkpoint_monotone "analytics_consumer" "data_change" 1))).
    repeat constructor.
Defined.

End EngineProperties.

(* ===================================================================== *)
(** * Part VIII. Further properties of the example consumers *)
(* ===================================================================== *)

Section MoreConsumerProperties.

Import Consumers.

Lemma bind_print {B : Type} (l : line) (f : unit -> M stdout B) (out : stdout) :
  (print l ≫= f) out = f tt (out ++ [l]).
Proof. reflexivity. Qed.

Lemma method_get_dict (v : pyval) (key : string) :
  is_dict v = true -> method_get v key = Ok (get_or_None v key).
Proof. by destruct v. Qed.

Lemma method_get_not_dict (v : pyval) (key : string) :
  is_dict v = false -> ∃ msg, method_get v key = Raise (AttributeError msg).
Proof. destruct v; try discriminate; intros _; by eexists. Qed.

Lemma py_or_returns (new_data old_data : pyval) (out : stdout) :
  py_or (eval (Ok new_data)) (eval (Ok old_data)) out
  = (Ok (new_or_old new_data old_data), out).
Proof.
  unfold py_or, new_or_old. rewrite bind_eval. by destruct (truthy new_data).
Qed.

(** The start of [UserChangeConsumer.handle_notification] on a change of
    [auth_user], up to the dispatch on the action. *)
Lemma user_change_dispatch (h : Handler) (out : stdout) (action old_data new_data : pyval) :
  get_table h = Ok (PStr "auth_user") ->
  get_action h = Ok action ->
  get_old_data h = Ok old_data ->
  get_new_data h = Ok new_data ->
  UserChangeConsumer.handle_notification h out =
    (let user_data := new_or_old new_data old_data in
     if py_eq action (PStr "INSERT") then
       username ← eval (method_get user_data "username");
       print [Lit "🆕 New user created: "; Fmt username];;
       UserChangeConsumer.send_welcome_email user_data
     else if py_eq action (PStr "UPDATE") then
       old_email ← eval (method_get old_data "email");
       new_email ← eval (method_get new_data "email");
       if py_ne old_email new_email then
         username ← eval (method_get new_data "username");
         print [Lit "📧 Email changed for "; Fmt username]
       else mret tt
     else if py_eq action (PStr "DELETE") then
       username ← eval (method_get user_data "username");
       print [Lit "🗑️ User deleted: "; Fmt username]
     else mret tt) out.
Proof.
  intros Ht Ha Ho Hn. unfold UserChangeConsumer.handle_notification.
  rewrite bind_eval, Ht. unfold py_ne at 1.
  rewrite (proj2 (py_eq_PStr _ _) eq_refl). cbn [negb].
  rewrite bind_eval, Ha, Ho, Hn.
  rewrite (bind_Ok _ _ _ _ _ (py_or_returns new_data old_data out)). cbv zeta.
  destruct (py_eq action (PStr "INSERT")); [done|].
  destruct (py_eq action (PStr "UPDATE")); [|done].
  by rewrite !bind_eval.
Qed.

(** X1: on a change of [auth_user] whose accessors return,
    [UserChangeConsumer.handle_notification] fails exactly when a value it
    calls [.get] on is not a dict: for INSERT and DELETE the new data if it
    is non-empty and the old data otherwise, for UPDATE both the old and the
    new data.  When it fails it raises [AttributeError] and has printed
    nothing; any other action returns. *)
Theorem user_change_fails_exactly_without_dict (h : Handler) (out : stdout)
    (action old_data new_data : pyval) :
  get_table h = Ok (PStr "auth_user") ->
  get_action h = Ok action ->
  get_old_data h = Ok old_data ->
  get_new_data h = Ok new_data ->
  let has_dicts :=
    if py_eq action (PStr "INSERT") then is_dict (new_or_old new_data old_data)
    else if py_eq action (PStr "UPDATE") then is_dict old_data && is_dict new_data
    else if py_eq action (PStr "DELETE") then is_dict (new_or_old new_data old_data)
    else true in
  (has_dicts = true ->
   ∃ out', UserChangeConsumer.handle_notification h out = (Ok tt, out')) ∧
  (has_dicts = false ->
   ∃ msg, UserChangeConsumer.handle_notification h out = (Raise (AttributeError msg), out)).
Proof.
  intros Ht Ha Ho Hn. rewrite (user_change_dispatch h out _ _ _ Ht Ha Ho Hn). cbv zeta.
  set (user_data := new_or_old new_data old_data).
  destruct (py_eq action (PStr "INSERT")).
  { split; intros Hd.
    - unfold UserChangeConsumer.send_welcome_email.
      rewrite bind_eval, (method_get_dict _ _ Hd), bind_print.
      rewrite bind_eval, (method_get_dict _ _ Hd). by eexists.
    - destruct (method_get_not_dict user_data "username" Hd) as [msg Hmsg].
      rewrite bind_eval, Hmsg. by exists msg. }
  destruct (py_eq action (PStr "UPDATE")).
  { split; intros Hd.
    - apply andb_true_iff in Hd as [Hod Hnd].
      rewrite bind_eval, (method_get_dict _ _ Hod).
      rewrite bind_eval, (method_get_dict _ _ Hnd).
      destruct (py_ne _ _); [|by eexists].
      rewrite bind_eval, (method_get_dict _ _ Hnd). by eexists.
    - rewrite bind_eval. destruct (is_dict old_data) eqn:Hod.
      + simpl in Hd. rewrite (method_get_dict _ _ Hod).
        destruct (method_get_not_dict new_data "email" Hd) as [msg Hmsg].
        rewrite bind_eval, Hmsg. by exists msg.
      + destruct (method_get_not_dict old_data "email" Hod) as [msg Hmsg].
        rewrite Hmsg. by exists msg. }
  destruct (py_eq action (PStr "DELETE")).
  { split; intros Hd.
    - rewrite bind_eval, (method_get_dict _ _ Hd). by eexists.
    - destruct (method_get_not_dict user_data "username" Hd) as [msg Hmsg].
      rewrite bind_eval, Hmsg. by exists msg. }
  split; [by eexists | discriminate].
Qed.

(** X1 at an INSERT whose [new_data] is an empty dict and whose
    [old_data] is absent: the empty dict is false, so [.get] is called on
    [None]. *)
Lemma user_change_fails_exactly_without_dict_witness :
  ∃ msg,
    UserChangeConsumer.handle_notification
      (NotificationHandler "data_change"
         [("table", PStr "auth_user"); ("action", PStr "INSERT"); ("new_data", PDict [])]
         false PNone) []
    = (Raise (AttributeError msg), []).
Proof.
  apply (proj2 (user_change_fails_exactly_without_dict
                  (NotificationHandler "data_change"
                     [("table", PStr "auth_user"); ("action", PStr "INSERT");
                      ("new_data", PDict [])] false PNone)
                  [] (PStr "INSERT") PNone (PDict []) eq_refl eq_refl eq_refl eq_refl)).
  reflexivity.
Defined.

(** X2: on an INSERT or a DELETE of [auth_user], the user data is the new
    data when it is a non-empty dict and the old data otherwise; an INSERT
    prints the user's name and then the welcome mail for the user's email,
    a DELETE prints the user's name, and a missing field prints as
    [None]. *)
Theorem user_change_insert_delete_output (h : Handler) (out : stdout)
    (action old_data new_data : pyval) :
  get_table h = Ok (PStr "auth_user") ->
  get_action h = Ok action ->
  get_old_data h = Ok old_data ->
  get_new_data h = Ok new_data ->
  is_dict (new_or_old new_data old_data) = true ->
  let user_data := new_or_old new_data old_data in
  (action = PStr "INSERT" ->
   UserChangeConsumer.handle_notification h out =
     (Ok tt,
      out ++ [[Lit "🆕 New user created: "; Fmt (get_or_None user_data "username")];
              [Lit "   📨 Sending welcome email to "; Fmt (get_or_None user_data "email")]])) ∧
  (action = PStr "DELETE" ->
   UserChangeConsumer.handle_notification h out =
     (Ok tt, out ++ [[Lit "🗑️ User deleted: "; Fmt (get_or_None user_data "username")]])).
Proof.
  intros Ht Ha Ho Hn Hd user_data.
  rewrite (user_change_dispatch h out _ _ _ Ht Ha Ho Hn). cbv zeta. fold user_data.
  split; intros ->.
  - rewrite (proj2 (py_eq_PStr _ _) eq_refl).
    unfold UserChangeConsumer.send_welcome_email.
    rewrite bind_eval, (method_get_dict _ _ Hd), bind_print.
    rewrite bind_eval, (method_get_dict _ _ Hd). unfold print.
    by rewrite <- app_assoc.
  - rewrite (py_eq_PStr_false (PStr "DELETE") "INSERT") by discriminate.
    rewrite (py_eq_PStr_false (PStr "DELETE") "UPDATE") by discriminate.
    rewrite (proj2 (py_eq_PStr _ _) eq_refl).
    by rewrite bind_eval, (method_get_dict _ _ Hd).
Qed.

(** X2 at a DELETE that carries only [old_data]: the name printed is the
    one of the old data. *)
Lemma user_change_insert_delete_output_witness :
  UserChangeConsumer.handle_notification
    (NotificationHandler "data_change"
       [("table", PStr "auth_user"); ("action", PStr "DELETE");
        ("old_data", PDict [("username", PStr "bob")])] false PNone) []
  = (Ok tt, [[Lit "🗑️ User deleted: "; Fmt (PStr "bob")]]).
Proof.
  apply (proj2 (user_change_insert_delete_output
                  (NotificationHandler "data_change"
                     [("table", PStr "auth_user"); ("action", PStr "DELETE");
                      ("old_data", PDict [("username", PStr "bob")])] false PNone)
                  [] (PStr "DELETE") (PDict [("username", PStr "bob")]) PNone
                  eq_refl eq_refl eq_refl eq_refl eq_refl)).
  reflexivity.
Defined.

(** X3: on an UPDATE of [auth_user] with both old and new data,
    [UserChangeConsumer.handle_notification] reports a changed email and
    nothing else: it prints nothing when both carry the same email or both
    lack one, whatever else changed, and prints the new user name when the
    emails are two different strings. *)
Theorem user_change_update_reports_email_change (h : Handler) (out : stdout)
    (old_items new_items : list (string * pyval)) :
  get_table h = Ok (PStr "auth_user") ->
  get_action h = Ok (PStr "UPDATE") ->
  get_old_data h = Ok (PDict old_items) ->
  get_new_data h = Ok (PDict new_items) ->
  (∀ email,
     dict_lookup old_items "email" = Some (PStr email) ->
     dict_lookup new_items "email" = Some (PStr email) ->
     UserChangeConsumer.handle_notification h out = (Ok tt, out)) ∧
  (dict_lookup old_items "email" = None ->
   dict_lookup new_items "email" = None ->
   UserChangeConsumer.handle_notification h out = (Ok tt, out)) ∧
  (∀ old_email new_email,
     dict_lookup old_items "email" = Some (PStr old_email) ->
     dict_lookup new_items "email" = Some (PStr new_email) ->
     old_email ≠ new_email ->
     UserChangeConsumer.handle_notification h out =
       (Ok tt,
        out ++ [[Lit "📧 Email changed for ";
                 Fmt (get_or_None (PDict new_items) "username")]])).
Proof.
  intros Ht Ha Ho Hn.
  rewrite (user_change_dispatch h out _ _ _ Ht Ha Ho Hn). cbv zeta.
  rewrite (py_eq_PStr_false (PStr "UPDATE") "INSERT") by discriminate.
  rewrite (proj2 (py_eq_PStr _ _) eq_refl).
  rewrite bind_eval. cbn [method_get]. rewrite bind_eval. cbn [method_get].
  split; [|split].
  - intros email -> ->. unfold py_ne.
    by rewrite (proj2 (py_eq_PStr _ _) eq_refl).
  - by intros -> ->.
  - intros old_email new_email -> -> Hne. unfold py_ne.
    rewrite py_eq_PStr_false by congruence. cbn [negb].
    by rewrite bind_eval.
Qed.

(** X3 at an UPDATE that changes the name and keeps the email. *)
Lemma user_change_update_reports_email_change_witness :
  UserChangeConsumer.handle_notification
    (NotificationHandler "data_change"
       [("table", PStr "auth_user"); ("action", PStr "UPDATE");
        ("old_data", PDict [("username", PStr "al"); ("email", PStr "a@x.com")]);
        ("new_data", PDict [("username", PStr "alice"); ("email", PStr "a@x.com")])]
       false PNone) []
  = (Ok tt, []).
Proof.
  apply (proj1 (user_change_update_reports_email_change
                  (NotificationHandler "data_change"
                     [("table", PStr "auth_user"); ("action", PStr "UPDATE");
                      ("old_data", PDict [("username", PStr "al"); ("email", PStr "a@x.com")]);
                      ("new_data",
                       PDict [("username", PStr "alice"); ("email", PStr "a@x.com")])]
                     false PNone)
                  [] [("username", PStr "al"); ("email", PStr "a@x.com")]
                  [("username", PStr "alice"); ("email", PStr "a@x.com")]
                  eq_refl eq_refl eq_refl eq_refl) "a@x.com" eq_refl eq_refl).
Defined.

(** X4: an exception that leaves [AnalyticsConsumer.handle_notification]
    comes from an exception raised by one of the handler's reads or
    accessors, with nothing printed: either that exception does not derive
    from [Exception], and it is the one that leaves; or it derives from
    [Exception], was caught, and what leaves is what its [__str__] raised
    while the [except] clause formatted the message. *)
Theorem analytics_escaping_exception_origin (h : Handler) (out out' : stdout) (e : exn) :
  AnalyticsConsumer.handle_notification h out = (Raise e, out') ->
  out' = out ∧
  ∃ e0,
    (channel h = Raise e0 ∨ data h = Raise e0 ∨ timestamp h = Raise e0 ∨
     get_table h = Raise e0 ∨ get_action h = Raise e0 ∨ get_record_id h = Raise e0) ∧
    ((isinstance_Exception e0 = false ∧ e = e0) ∨
     (isinstance_Exception e0 = true ∧ format_exn e0 = Raise e)).
Proof.
  unfold AnalyticsConsumer.handle_notification, try_except.
  rewrite bind_eval.
  assert (Hesc : ∀ e0 : exn,
            (if isinstance_Exception e0
             then (text ← eval (format_exn e0);
                   print [Lit "❌ Analytics tracking failed: "; text]) out
             else (Raise e0, out)) = (Raise e, out') ->
            out' = out ∧
            ((isinstance_Exception e0 = false ∧ e = e0) ∨
             (isinstance_Exception e0 = true ∧ format_exn e0 = Raise e))).
  { intros e0. destruct (isinstance_Exception e0) eqn:Ei.
    - rewrite bind_format_exn. destruct (format_exn e0) as [text|e'] eqn:Ef;
        [discriminate|]. intros [= <- <-]. auto.
    - intros [= <- <-]. auto. }
  destruct (channel h) as [chan|e0] eqn:Ec.
  2:{ intros H. apply Hesc in H as [? ?]. split; [done|]. exists e0. auto. }
  destruct (py_eq chan (PStr "data_change")).
  - unfold AnalyticsConsumer.track_database_change. rewrite bind_eval.
    destruct (get_table h) as [t|e0] eqn:Et.
    2:{ intros H. apply Hesc in H as [? ?]. split; [done|]. exists e0. auto 10. }
    rewrite bind_eval.
    destruct (get_action h) as [a|e0] eqn:Ea.
    2:{ intros H. apply Hesc in H as [? ?]. split; [done|]. exists e0. auto 10. }
    rewrite bind_eval.
    destruct (get_record_id h) as [r|e0] eqn:Er.
    2:{ intros H. apply Hesc in H as [? ?]. split; [done|]. exists e0. auto 10. }
    rewrite bind_eval.
    destruct (timestamp h) as [ts|e0] eqn:Ets.
    2:{ intros H. apply Hesc in H as [? ?]. split; [done|]. exists e0. auto 10. }
    discriminate.
  - rewrite bind_eval.
    destruct (py_eq chan (PStr "user_events")); [|discriminate].
    unfold AnalyticsConsumer.track_user_event. rewrite bind_eval.
    destruct (data h) as [d|e0] eqn:Ed; [discriminate|].
    intros H. apply Hesc in H as [? ?]. split; [done|]. exists e0. auto 10.
Qed.

(** X4 at the handler whose [get_table] fails with the [TableError] that
    [str] fails on: what leaves is the [TypeError] of the formatting. *)
Lemma analytics_escaping_exception_origin_witness :
  [] = ([] : stdout) ∧
  ∃ e0,
    (channel unprintable_handler = Raise e0 ∨ data unprintable_handler = Raise e0 ∨
     timestamp unprintable_handler = Raise e0 ∨ get_table unprintable_handler = Raise e0 ∨
     get_action unprintable_handler = Raise e0 ∨
     get_record_id unprintable_handler = Raise e0) ∧
    ((isinstance_Exception e0 = false ∧
      OtherException "TypeError" "__str__ returned non-string (type int)" = e0) ∨
     (isinstance_Exception e0 = true ∧
      format_exn e0 =
        Raise (OtherException "TypeError" "__str__ returned non-string (type int)"))).
Proof.
  exact (analytics_escaping_exception_origin unprintable_handler [] []
           (OtherException "TypeError" "__str__ returned non-string (type int)") eq_refl).
Defined.

(** X5: whatever the handler does, [AnalyticsConsumer.handle_notification]
    prints at most one line: the state it leaves is the one it found, or
    that state with one line appended.  A record of a change is printed
    whole or not at all. *)
Theorem analytics_prints_at_most_one_line (h : Handler) (out : stdout) :
  (AnalyticsConsumer.handle_notification h out).2 = out ∨
  ∃ l, (AnalyticsConsumer.handle_notification h out).2 = out ++ [l].
Proof.
  unfold AnalyticsConsumer.handle_notification, try_except.
  rewrite bind_eval.
  assert (Hesc : ∀ e0 : exn,
            (if isinstance_Exception e0
             then (text ← eval (format_exn e0);
                   print [Lit "❌ Analytics tracking failed: "; text]) out
             else (Raise e0, out)).2 = out ∨
            ∃ l, (if isinstance_Exception e0
                  then (text ← eval (format_exn e0);
                        print [Lit "❌ Analytics tracking failed: "; text]) out
                  else (Raise e0, out)).2 = out ++ [l]).
  { intros e0. destruct (isinstance_Exception e0); [|by left].
    rewrite bind_format_exn. destruct (format_exn e0); [right; by eexists | by left]. }
  destruct (channel h) as [chan|e0]; [|apply Hesc].
  destruct (py_eq chan (PStr "data_change")).
  - unfold AnalyticsConsumer.track_database_change. rewrite bind_eval.
    destruct (get_table h) as [t|e0]; [|apply Hesc]. rewrite bind_eval.
    destruct (get_action h) as [a|e0]; [|apply Hesc]. rewrite bind_eval.
    destruct (get_record_id h) as [r|e0]; [|apply Hesc]. rewrite bind_eval.
    destruct (timestamp h) as [ts|e0]; [|apply Hesc].
    right. by eexists.
  - rewrite bind_eval.
    destruct (py_eq chan (PStr "user_events")); [|by left].
    unfold AnalyticsConsumer.track_user_event. rewrite bind_eval.
    destruct (data h) as [d|e0]; [|apply Hesc].
    right. by eexists.
Qed.

(** X6: on a handler whose reads return, [AnalyticsConsumer] tracks the
    channels it declares and no other: a notification of [data_change] gives
    the line of the database change, built from the table, the action, the
    record id and the timestamp; one of [user_events] gives the line of the
    user event with the payload; one of any channel outside [channels]
    gives nothing. *)
Theorem analytics_tracks_declared_channels (h : Handler) (out : stdout) (chan : string)
    (table action record_id ts payload : pyval) :
  channel h = Ok (PStr chan) ->
  get_table h = Ok table ->
  get_action h = Ok action ->
  get_record_id h = Ok record_id ->
  timestamp h = Ok ts ->
  data h = Ok payload ->
  (chan = "data_change" ->
   AnalyticsConsumer.handle_notification h out =
     (Ok tt,
      out ++ [[Lit "📈 Analytics: ";
               Fmt (PDict [("event_type", PStr "database_change"); ("table", table);
                           ("action", action); ("record_id", record_id);
                           ("timestamp", ts)])]])) ∧
  (chan = "user_events" ->
   AnalyticsConsumer.handle_notification h out =
     (Ok tt, out ++ [[Lit "👤 User Event: "; Fmt payload]])) ∧
  (chan ∉ AnalyticsConsumer.channels ->
   AnalyticsConsumer.handle_notification h out = (Ok tt, out)).
Proof.
  intros Hc Ht Ha Hr Hts Hd.
  unfold AnalyticsConsumer.handle_notification, try_except.
  rewrite bind_eval, Hc.
  split; [|split].
  - intros ->. rewrite (proj2 (py_eq_PStr _ _) eq_refl).
    unfold AnalyticsConsumer.track_database_change.
    by rewrite bind_eval, Ht, bind_eval, Ha, bind_eval, Hr, bind_eval, Hts.
  - intros ->. rewrite (py_eq_PStr_false (PStr "user_events") "data_change") by discriminate.
    rewrite bind_eval, (proj2 (py_eq_PStr _ _) eq_refl).
    unfold AnalyticsConsumer.track_user_event.
    by rewrite bind_eval, Hd.
  - intros Hnot. unfold AnalyticsConsumer.channels in Hnot.
    rewrite !not_elem_of_cons in Hnot. destruct Hnot as (H1 & H2 & _).
    rewrite py_eq_PStr_false by congruence.
    rewrite bind_eval, py_eq_PStr_false by congruence. done.
Qed.

(** X6 at a notification of [system_alerts], which [AnalyticsConsumer] does
    not declare. *)
Lemma analytics_tracks_declared_channels_witness :
  AnalyticsConsumer.handle_notification
    (NotificationHandler "system_alerts" [("level", PStr "high")] false PNone) []
  = (Ok tt, []).
Proof.
  apply (proj2 (proj2 (analytics_tracks_declared_channels
                         (NotificationHandler "system_alerts" [("level", PStr "high")]
                            false PNone)
                         [] "system_alerts" PNone PNone PNone PNone
                         (PDict [("level", PStr "high")])
                         eq_refl eq_refl eq_refl eq_refl eq_refl eq_refl))).
  apply (bool_decide_unpack _). vm_compute. exact I.
Defined.

(** X7: [MultiChannelConsumer.handle_notification] routes by channel, and
    each route reads only what it prints: [data_change] prints the table and
    the action, [user_events] and [system_alerts] print the payload, and a
    channel outside [channels] (or a channel that is not a string) gives
    nothing, without any accessor being called. *)
Theorem multi_channel_routes_by_channel (h : Handler) (out : stdout) (chan : pyval) :
  channel h = Ok chan ->
  (∀ table action,
     chan = PStr "data_change" -> get_table h = Ok table -> get_action h = Ok action ->
     MultiChannelConsumer.handle_notification h out =
       (Ok tt, out ++ [[Lit "🔄 Data change: "; Fmt table; Lit " "; Fmt action]])) ∧
  (∀ payload,
     chan = PStr "user_events" -> data h = Ok payload ->
     MultiChannelConsumer.handle_notification h out =
       (Ok tt, out ++ [[Lit "👤 User event: "; Fmt payload]])) ∧
  (∀ payload,
     chan = PStr "system_alerts" -> data h = Ok payload ->
     MultiChannelConsumer.handle_notification h out =
       (Ok tt, out ++ [[Lit "🚨 System alert: "; Fmt payload]])) ∧
  ((∀ name, name ∈ MultiChannelConsumer.channels -> chan ≠ PStr name) ->
   MultiChannelConsumer.handle_notification h out = (Ok tt, out)).
Proof.
  intros Hc. unfold MultiChannelConsumer.handle_notification.
  rewrite bind_eval, Hc.
  split; [|split; [|split]].
  - intros table action -> Ht Ha.
    rewrite (proj2 (py_eq_PStr _ _) eq_refl).
    unfold MultiChannelConsumer.handle_data_change.
    by rewrite bind_eval, Ht, bind_eval, Ha.
  - intros payload -> Hd.
    rewrite (py_eq_PStr_false (PStr "user_events") "data_change") by discriminate.
    rewrite bind_eval, (proj2 (py_eq_PStr _ _) eq_refl).
    unfold MultiChannelConsumer.handle_user_event.
    by rewrite bind_eval, Hd.
  - intros payload -> Hd.
    rewrite (py_eq_PStr_false (PStr "system_alerts") "data_change") by discriminate.
    rewrite bind_eval.
    rewrite (py_eq_PStr_false (PStr "system_alerts") "user_events") by discriminate.
    rewrite bind_eval, (proj2 (py_eq_PStr _ _) eq_refl).
    unfold MultiChannelConsumer.handle_system_alert.
    by rewrite bind_eval, Hd.
  - intros Hnot.
    rewrite py_eq_PStr_false
      by (apply Hnot; unfold MultiChannelConsumer.channels; set_solver).
    rewrite bind_eval.
    rewrite py_eq_PStr_false
      by (apply Hnot; unfold MultiChannelConsumer.channels; set_solver).
    rewrite bind_eval.
    rewrite py_eq_PStr_false
      by (apply Hnot; unfold MultiChannelConsumer.channels; set_solver).
    done.
Qed.

(** X7 at a system alert whose accessors of the database change fail: the
    route of [system_alerts] does not call them. *)
Lemma multi_channel_routes_by_channel_witness :
  MultiChannelConsumer.handle_notification
    {| channel := Ok (PStr "system_alerts");
       data := Ok (PDict [("level", PStr "high")]);
       is_replay := Ok (PBool false);
       timestamp := Ok PNone;
       is_database_change := Ok (PBool false);
       get_table := Raise (OtherException "KeyError" "'table'");
       get_action := Raise (OtherException "KeyError" "'action'");
       get_record_id := Raise (OtherException "KeyError" "'record_id'");
       get_old_data := Ok PNone;
       get_new_data := Ok PNone |} []
  = (Ok tt, [[Lit "🚨 System alert: "; Fmt (PDict [("level", PStr "high")])]]).
Proof.
  exact (proj1 (proj2 (proj2 (multi_channel_routes_by_channel
           {| channel := Ok (PStr "system_alerts");
              data := Ok (PDict [("level", PStr "high")]);
              is_replay := Ok (PBool false);
              timestamp := Ok PNone;
              is_database_change := Ok (PBool false);
              get_table := Raise (OtherException "KeyError" "'table'");
              get_action := Raise (OtherException "KeyError" "'action'");
              get_record_id := Raise (OtherException "KeyError" "'record_id'");
              get_old_data := Ok PNone;
              get_new_data := Ok PNone |} [] (PStr "system_alerts") eq_refl)))
           (PDict [("level", PStr "high")]) eq_refl eq_refl).
Defined.

(** [for key in keys: print(...)] appends one line per key, in order. *)
Lemma for_each_print (keys : list line) (prefix : line) (out : stdout) :
  for_each keys (fun key => print (prefix ++ key)) out
  = (Ok tt, out ++ map (fun key => prefix ++ key) keys).
Proof.
  revert out. induction keys as [|key keys IH]; intros out.
  - simpl. by rewrite app_nil_r.
  - cbn [for_each map]. rewrite bind_print, IH.
    by rewrite <- app_assoc.
Qed.

(** X8: [CacheInvalidationConsumer.handle_notification] does nothing, and
    calls no accessor, unless [is_database_change()] is true; when it is,
    it prints the header and then one line for each of the three cache keys
    of the record: the key of the record, the key of the table's list and the
    key of the table's statistics, in this order. *)
Theorem cache_invalidation_clears_three_keys (h : Handler) (out : stdout)
    (is_change : pyval) :
  is_database_change h = Ok is_change ->
  (truthy is_change = false ->
   CacheInvalidationConsumer.handle_notification h out = (Ok tt, out)) ∧
  (∀ table record_id,
     truthy is_change = true ->
     get_table h = Ok table ->
     get_record_id h = Ok record_id ->
     CacheInvalidationConsumer.handle_notification h out =
       (Ok tt,
        out ++
        [[Lit "🗄️ Invalidating cache for "; Fmt table; Lit ":"; Fmt record_id];
         [Lit "   ❌ Clearing cache key: "; Fmt table; Lit ":"; Fmt record_id];
         [Lit "   ❌ Clearing cache key: "; Fmt table; Lit ":list"];
         [Lit "   ❌ Clearing cache key: "; Lit "stats:"; Fmt table]])).
Proof.
  intros Hi. unfold CacheInvalidationConsumer.handle_notification.
  rewrite bind_eval, Hi. split.
  - by intros ->.
  - intros table record_id -> Ht Hr. cbn [negb].
    rewrite bind_eval, Ht, bind_eval, Hr, bind_print.
    rewrite (for_each_print _ [Lit "   ❌ Clearing cache key: "]).
    by rewrite <- app_assoc.
Qed.

(** X8 at a notification that is not a database change and whose accessors
    fail. *)
Lemma cache_invalidation_clears_three_keys_witness :
  CacheInvalidationConsumer.handle_notification
    {| channel := Ok (PStr "data_change");
       data := Ok (PDict []);
       is_replay := Ok (PBool false);
       timestamp := Ok PNone;
       is_database_change := Ok (PBool false);
       get_table := Raise (OtherException "KeyError" "'table'");
       get_action := Raise (OtherException "KeyError" "'action'");
       get_record_id := Raise (OtherException "KeyError" "'record_id'");
       get_old_data := Ok PNone;
       get_new_data := Ok PNone |} []
  = (Ok tt, []).
Proof.
  exact (proj1 (cache_invalidation_clears_three_keys
           {| channel := Ok (PStr "data_change");
              data := Ok (PDict []);
              is_replay := Ok (PBool false);
              timestamp := Ok PNone;
              is_database_change := Ok (PBool false);
              get_table := Raise (OtherException "KeyError" "'table'");
              get_action := Raise (OtherException "KeyError" "'action'");
              get_record_id := Raise (OtherException "KeyError" "'record_id'");
              get_old_data := Ok PNone;
              get_new_data := Ok PNone |} [] (PBool false) eq_refl) eq_refl).
Defined.

(** The four lines [LoggingConsumer] prints for every notification. *)
Lemma logging_header (handler_str : Handler -> result pyval) (h : Handler) (out : stdout)
    (text chan payload replay is_change : pyval) :
  handler_str h = Ok text ->
  channel h = Ok chan ->
  data h = Ok payload ->
  is_replay h = Ok replay ->
  is_database_change h = Ok is_change ->
  LoggingConsumer.handle_notification handler_str h out =
    (if truthy is_change then
       print [Lit "   📊 Database Change:"];;
       table ← eval (get_table h);
       print [Lit "      Table: "; Fmt table];;
       action ← eval (get_action h);
       print [Lit "      Action: "; Fmt action];;
       record_id ← eval (get_record_id h);
       print [Lit "      Record ID: "; Fmt record_id]
     else mret tt)
      (out ++ [[Lit "📋 Notification received: "; Fmt text];
               [Lit "   Channel: "; Fmt chan];
               [Lit "   Data: "; Fmt payload];
               [Lit "   Replay: "; Fmt replay]]).
Proof.
  intros Hs Hc Hd Hr Hi. unfold LoggingConsumer.handle_notification.
  rewrite bind_eval, Hs, bind_print, bind_eval, Hc, bind_print.
  rewrite bind_eval, Hd, bind_print, bind_eval, Hr, bind_print.
  rewrite bind_eval, Hi.
  by rewrite <- !app_assoc.
Qed.

(** X9: [LoggingConsumer.handle_notification] prints as it goes.  On a
    notification that is not a database change it prints four lines and
    calls none of [get_table], [get_action] and [get_record_id]; on a
    database change it prints eight lines; and when an accessor of the
    change raises, the exception reaches the caller after the lines before
    it were printed: five of them when [get_table] raises. *)
Theorem logging_prints_as_it_goes (handler_str : Handler -> result pyval) (h : Handler)
    (out : stdout) (text chan payload replay is_change : pyval) :
  handler_str h = Ok text ->
  channel h = Ok chan ->
  data h = Ok payload ->
  is_replay h = Ok replay ->
  is_database_change h = Ok is_change ->
  let header := [[Lit "📋 Notification received: "; Fmt text];
                 [Lit "   Channel: "; Fmt chan];
                 [Lit "   Data: "; Fmt payload];
                 [Lit "   Replay: "; Fmt replay]] in
  (truthy is_change = false ->
   LoggingConsumer.handle_notification handler_str h out = (Ok tt, out ++ header)) ∧
  (∀ table action record_id,
     truthy is_change = true ->
     get_table h = Ok table -> get_action h = Ok action ->
     get_record_id h = Ok record_id ->
     LoggingConsumer.handle_notification handler_str h out =
       (Ok tt,
        out ++ header ++
        [[Lit "   📊 Database Change:"];
         [Lit "      Table: "; Fmt table];
         [Lit "      Action: "; Fmt action];
         [Lit "      Record ID: "; Fmt record_id]])) ∧
  (∀ e,
     truthy is_change = true ->
     get_table h = Raise e ->
     LoggingConsumer.handle_notification handler_str h out =
       (Raise e, out ++ header ++ [[Lit "   📊 Database Change:"]])).
Proof.
  intros Hs Hc Hd Hr Hi header.
  rewrite (logging_header handler_str h out _ _ _ _ _ Hs Hc Hd Hr Hi). fold header.
  split; [|split].
  - by intros ->.
  - intros table action record_id -> Ht Ha Hrec.
    rewrite bind_print, bind_eval, Ht, bind_print, bind_eval, Ha, bind_print.
    rewrite bind_eval, Hrec. unfold print.
    by rewrite <- !app_assoc.
  - intros e -> Ht.
    rewrite bind_print, bind_eval, Ht.
    by rewrite <- !app_assoc.
Qed.

(** X9 at a database change whose [get_table] fails, with a [str] that
    answers the channel. *)
Lemma logging_prints_as_it_goes_witness :
  LoggingConsumer.handle_notification channel broken_handler []
  = (Raise (OtherException "KeyError" "'table'"),
     [[Lit "📋 Notification received: "; Fmt (PStr "data_change")];
      [Lit "   Channel: "; Fmt (PStr "data_change")];
      [Lit "   Data: "; Fmt (PDict [])];
      [Lit "   Replay: "; Fmt (PBool false)];
      [Lit "   📊 Database Change:"]]).
Proof.
  exact (proj2 (proj2 (logging_prints_as_it_goes channel broken_handler []
                         (PStr "data_change") (PStr "data_change") (PDict []) (PBool false)
                         (PBool true) eq_refl eq_refl eq_refl eq_refl eq_refl))
           (OtherException "KeyError" "'table'") eq_refl eq_refl).
Defined.

(** The characters of a concatenation. *)
Lemma list_ascii_of_string_app (s t : string) :
  list_ascii_of_string (s +:+ t) = list_ascii_of_string s ++ list_ascii_of_string t.
Proof. induction s as [|c s IH]; [done|]. simpl. by rewrite IH. Qed.

(** Appending a fixed suffix is injective. *)
Lemma string_app_inj_r (s1 s2 t : string) : s1 +:+ t = s2 +:+ t -> s1 = s2.
Proof.
  intros H. apply (f_equal list_ascii_of_string) in H.
  rewrite !list_ascii_of_string_app in H. apply app_inv_tail in H.
  rewrite <- (string_of_list_ascii_of_string s1), <- (string_of_list_ascii_of_string s2).
  by rewrite H.
Qed.

(** No id of a table monitor is the id of a statically declared consumer:
    the former end in [_monitor], the latter in [consumer]. *)
Lemma monitor_id_not_static (table_name : string) :
  table_name +:+ "_monitor" ∉ static_consumer_ids.
Proof.
  assert (Hsuffix : ∀ s, s ∈ static_consumer_ids ->
            ∃ p, list_ascii_of_string s = p ++ list_ascii_of_string "consumer").
  { intros s Hs. unfold static_consumer_ids in Hs.
    rewrite !elem_of_cons in Hs. rewrite elem_of_nil in Hs.
    destruct Hs as [-> | [-> | [-> | [-> | [-> | []]]]]].
    - by exists (list_ascii_of_string "logging_").
    - by exists (list_ascii_of_string "user_change_").
    - by exists (list_ascii_of_string "cache_invalidation_").
    - by exists (list_ascii_of_string "analytics_").
    - by exists (list_ascii_of_string "multi_channel_"). }
  intros Hin. destruct (Hsuffix _ Hin) as [p Hp].
  rewrite list_ascii_of_string_app in Hp.
  apply app_inj_2 in Hp as [_ Hp]; [discriminate | reflexivity].
Qed.

(** X10: the consumer ids of the module never collide.  The five classes
    declare five different ids, the factory gives different tables
    different ids, and no table name gives a monitor the id of one of the
    five classes. *)
Theorem consumer_ids_are_distinct (str_title : string -> string) (tables : list string) :
  NoDup tables ->
  NoDup (static_consumer_ids ++
         map (fun table_name => consumer_id (create_table_monitor str_title table_name))
             tables).
Proof.
  intros Hnd. apply NoDup_app. split; [|split].
  - apply (bool_decide_unpack _). vm_compute. exact I.
  - intros s Hs Hin. apply list_elem_of_fmap in Hin as (table_name & -> & _).
    by apply (monitor_id_not_static table_name).
  - apply NoDup_fmap_2; [|done].
    intros s1 s2 H. by apply string_app_inj_r in H.
Qed.

(** X10 at two tables, one of which is named like a consumer. *)
Lemma consumer_ids_are_distinct_witness :
  NoDup (static_consumer_ids ++
         map (fun table_name => consumer_id (create_table_monitor ascii_title table_name))
             ["auth_user"; "logging_consumer"]).
Proof.
  apply (consumer_ids_are_distinct ascii_title ["auth_user"; "logging_consumer"]).
  apply (bool_decide_unpack _). vm_compute. exact I.
Defined.

End MoreConsumerProperties.
